(** * GetHooks: comparing two snapshots of hook information (diff.c)

    A shallow embedding of diff.c: the filter [is_hook_wanted], the
    comparators [print_diff_gui] and [print_diff_hook], the merge of two
    per-desktop hook arrays [print_diff_desktop_hook_items] and the walk
    over all desktops [print_diff_desktop_hook_lists].

    Conventions.
    - Machine integers, handles and kernel addresses are [Z]; a NULL
      pointer to an optional struct is [None].
    - A wide string is the list of the WCHARs stored at its address; the
      memory after the list reads as NUL, so the terminator of a C string
      is implicit and a NUL inside the list ends the string early.
    - printf output is a list of [output] items, one per message block.
    - FAIL_IF and exit stop the process: a computation is a pair of what
      was printed and of how it ended.
    - A guard FAIL_IF( !p ) on a pointer that is passed here as a value
      holds by typing and is left out; the guards on optional pointers and
      on numbers are kept.
    - G->config is passed as the argument [cfg].
    - print_diff_hook() passes a string literal where print_diff_gui() has
      a struct gui pointer and a struct gui pointer where it has a string:
      what is read there is a parameter, [mem], of all that follows. *)

From Stdlib Require Import ZArith List Bool Lia String Ascii Sorted Arith.
From Equations Require Import Equations.
From Equations.Prop Require Import Logic.
Import ListNotations.
Open Scope Z_scope.

Set Implicit Arguments.

(** ** Wide strings and the C runtime functions diff.c calls *)

Definition WCHAR := Z.
Definition wstring := list WCHAR.

(** The wide string literal L"..." of an ASCII text. *)
Definition L (s : string) : wstring :=
  map (fun c => Z.of_N (N_of_ascii c)) (list_ascii_of_string s).

(** The WCHAR at index [i] of the memory a wide string points to. *)
Definition wchar_at (s : wstring) (i : nat) : WCHAR := nth i s 0.

(** wcslen: the number of WCHARs before the first NUL. *)
Fixpoint wcslen (s : wstring) : nat :=
  match s with
  | [] => O
  | c :: s' => if c =? 0 then O else S (wcslen s')
  end.

(** wcsncmp: compares at most [n] WCHARs and stops after a NUL. *)
Fixpoint wcsncmp (s1 s2 : wstring) (n : nat) : Z :=
  match n with
  | O => 0
  | S n' =>
      let c1 := hd 0 s1 in
      let c2 := hd 0 s2 in
      if c1 =? c2
      then if c1 =? 0 then 0 else wcsncmp (tl s1) (tl s2) n'
      else if c1 <? c2 then -1 else 1
  end.

(** towlower in the C locale: only A..Z change. *)
Definition towlower (c : WCHAR) : WCHAR :=
  if (65 <=? c) && (c <=? 90) then c + 32 else c.

(** _wcsicmp: compares two NUL-terminated wide strings, letters lowered. *)
Fixpoint _wcsicmp (s1 s2 : wstring) : Z :=
  let c1 := towlower (hd 0 s1) in
  let c2 := towlower (hd 0 s2) in
  if c1 =? c2
  then match s1 with
       | [] => 0
       | c :: s1' => if c1 =? 0 then 0 else _wcsicmp s1' (tl s2)
       end
  else if c1 <? c2 then -1 else 1.

(** ** The structs of the snapshot

    The declarations are in reactos.h and snapshot.h, outside diff.c; the
    records have the fields that diff.c reads, under their names. *)

Record UNICODE_STRING := {
  Length : Z;                 (* USHORT, in bytes *)
  MaximumLength : Z;          (* USHORT, in bytes *)
  Buffer : option wstring     (* PWSTR, may be NULL *)
}.

Record CLIENT_ID := {
  UniqueProcess : Z;
  UniqueThread : Z
}.

Record SYSTEM_THREAD_INFORMATION := {
  ClientId : CLIENT_ID
}.

Record SYSTEM_PROCESS_INFORMATION := {
  UniqueProcessId : Z;        (* HANDLE *)
  ImageName : UNICODE_STRING
}.

(** struct gui: a GUI thread with its thread and process information. *)
Record gui := {
  pvWin32ThreadInfo : Z;
  pvTeb : Z;
  sti : option SYSTEM_THREAD_INFORMATION;
  spi : option SYSTEM_PROCESS_INFORMATION
}.

Record HANDLEENTRY := {
  pHead : Z;
  bFlags : Z                  (* BYTE *)
}.

Record THRDESKHEAD := {
  h : Z;                      (* HANDLE *)
  cLockObj : Z                (* DWORD *)
}.

Record HOOK := {
  head : THRDESKHEAD;
  rpdesk1 : Z;
  pSelf : Z;
  phkNext : Z;
  iHook : Z;
  offPfn : Z;
  flags : Z;
  ihmod : Z;
  rpdesk2 : Z
}.

(** Modelled from the spec: struct hook has a stable numeric identity
    key, [key], by which compare_hook (defined outside diff.c) orders the
    records of a desktop. The other fields are those diff.c reads. *)
Record hook := {
  key : Z;
  entry : HANDLEENTRY;
  object : HOOK;
  owner : option gui;
  origin : option gui;
  target : option gui
}.

(** Modelled from the spec: compare_hook, the comparison function of the
    hook array, is not part of diff.c; the records of a desktop are ordered
    by their identity key. Negative, zero or positive as for qsort. *)
Definition compare_hook (a b : hook) : Z :=
  if key a <? key b then -1
  else if key b <? key a then 1
  else 0.

(** struct desktop_item; [desktop_ptr] is the address of the item, so that
    two pointers to desktop items are equal when their addresses are. *)
Record desktop_item := {
  desktop_ptr : Z;
  pwszDesktopName : wstring
}.

(** struct desktop_hook_item: the hook array of one attached to desktop.
    [hook_arr] holds the hook_count used elements of the array hook[]. *)
Record desktop_hook_item := {
  desktop : option desktop_item;
  hook_arr : list hook;
  hook_max : Z
}.

Definition hook_count (a : desktop_hook_item) : nat := List.length (hook_arr a).

(** struct desktop_hook_list: the linked list from head along next. *)
Definition desktop_hook_list := list desktop_hook_item.

(** ** The configuration

    The declarations are in global.h and list.h, outside diff.c. *)

(** enum list_type: the four members diff.c names, and any other one. *)
Inductive list_type :=
| LIST_INCLUDE_HOOK
| LIST_EXCLUDE_HOOK
| LIST_INCLUDE_PROG
| LIST_EXCLUDE_PROG
| LIST_OTHER_TYPE.

Definition list_type_eqb (x y : list_type) : bool :=
  match x, y with
  | LIST_INCLUDE_HOOK, LIST_INCLUDE_HOOK
  | LIST_EXCLUDE_HOOK, LIST_EXCLUDE_HOOK
  | LIST_INCLUDE_PROG, LIST_INCLUDE_PROG
  | LIST_EXCLUDE_PROG, LIST_EXCLUDE_PROG
  | LIST_OTHER_TYPE, LIST_OTHER_TYPE => true
  | _, _ => false
  end.

(** struct list_item: a program name, or a numeric id when name is NULL. *)
Record list_item := {
  name : option wstring;
  id : Z
}.

(** struct list: [list_head] is the linked list from head along next. *)
Record list_store := {
  init_time : Z;
  type : list_type;
  list_head : list list_item
}.

(** G->config *)
Record config := {
  proglist : list_store;
  hooklist : list_store
}.

(** ** Output and process termination *)

Inductive difftype := HOOK_ADDED | HOOK_MODIFIED | HOOK_REMOVED.

Inductive flags_owner := of_HANDLEENTRY | of_HOOK.

(** One item per message block that diff.c prints. *)
Inductive output :=
| hook_notice_begin (b : hook) (deskname : wstring) (d : difftype)
| hook_notice_end
| handleentry_flags_changed
| flags_same (o : flags_owner) (temp : Z)
| flags_removed (o : flags_owner) (temp : Z)
| flags_added (o : flags_owner) (temp : Z)
| gui_changed (threadname : string) (a b : option gui)
| handle_changed (old new : Z)
| lock_count_changed (old new : Z)
| rpdesk1_changed (old new : Z)
| kernel_address_changed (old new : Z)
| chain_modified (old new : Z)
| hook_id_changed (old new : Z)
| function_offset_changed (old new : Z)
| hook_flags_changed
| module_index_changed (old new : Z)
| rpdesk2_changed (old new : Z)
| fatal_message (msg : string).

(** How a process stops before a function returns. *)
Inductive stop :=
| failed          (* FAIL_IF( expr ) with expr true *)
| exited (status : Z).

Inductive result (A : Type) :=
| Return (x : A)
| Stop (s : stop).
Arguments Stop {A} s.

(** A computation: what it printed, and its result. *)
Definition io (A : Type) : Type := (list output * result A)%type.

Definition return_ {A} (x : A) : io A := ([], Return x).

Definition bind {A B} (m : io A) (f : A -> io B) : io B :=
  match m with
  | (o, Return x) => let (o', r) := f x in (o ++ o', r)
  | (o, Stop s) => (o, Stop s)
  end.

(** [m ;; k]: run [m], then [k] unless [m] stopped the process. *)
Definition seq {A B} (m : io A) (k : io B) : io B :=
  match m with
  | (o, Return _) => (o ++ fst k, snd k)
  | (o, Stop s) => (o, Stop s)
  end.

Notation "x <- m ;; k" := (bind m (fun x => k))
  (at level 61, m at next level, right associativity).
Notation "m ;; k" := (seq m k) (at level 61, right associativity).

Definition print (o : output) : io unit := ([o], Return tt).

(** Modelled from the spec: the macro FAIL_IF of util.h is a contract
    check, a true expression aborts the process at once. *)
Definition FAIL_IF (expr : bool) : io unit :=
  if expr then ([], Stop failed) else return_ tt.

(** Modelled from the spec: MSG_FATAL prints a diagnostic. *)
Definition MSG_FATAL (msg : string) : io unit := print (fatal_message msg).

Definition exit {A} (status : Z) : io A := ([], Stop (exited status)).

(** if( c ) m; for a statement m *)
Definition when (c : bool) (m : io unit) : io unit :=
  if c then m else return_ tt.

Definition printed {A} (m : io A) : list output := fst m.
Definition outcome {A} (m : io A) : result A := snd m.

(** C's [||] and [&&] on calls that may stop the process: the right
    operand runs only when the left one does not decide. *)
Definition orelse (m k : io bool) : io bool :=
  x <- m ;; if x then return_ true else k.

(** ** Integer conversions *)

Definition to_BYTE (x : Z) : Z := x mod 256.
Definition to_DWORD (x : Z) : Z := x mod 2 ^ 32.
Definition to_int (x : Z) : Z :=
  let y := x mod 2 ^ 32 in if y <? 2 ^ 31 then y else y - 2 ^ 32.

(** ** The filter *)

(** match_gui_process_name(): [gui] and [name] are not NULL here. *)
Definition match_gui_process_name (gui : gui) (name : wstring) : bool :=
  match spi gui with
  | Some p =>
      match Buffer (ImageName p) with
      | Some buf => _wcsicmp buf name =? 0
      | None => false
      end
  | None => false
  end.

(** match_gui_process_pid() *)
Definition match_gui_process_pid (gui : gui) (pid : Z) : io bool :=
  FAIL_IF (pid =? 0) ;;
  match spi gui with
  | Some p => return_ (pid =? to_int (to_DWORD (UniqueProcessId p)))
  | None => return_ false
  end.

(** match_hook_process_pid(). The second guard reads FAIL_IF( !name ) in
    the source, where no name is in scope; it is taken on the parameter the
    function has, as in match_gui_process_pid. *)
Definition match_hook_process_pid (hook : hook) (pid : Z) : io bool :=
  FAIL_IF (pid =? 0) ;;
  orelse (match owner hook with
          | Some g => match_gui_process_pid g pid
          | None => return_ false
          end)
 (orelse (match origin hook with
          | Some g => match_gui_process_pid g pid
          | None => return_ false
          end)
         (match target hook with
          | Some g => match_gui_process_pid g pid
          | None => return_ false
          end)).

(** match_hook_process_name() *)
Definition match_hook_process_name (hook : hook) (name : wstring) : bool :=
  match owner hook with
  | Some g => match_gui_process_name g name
  | None => false
  end
  || match origin hook with
     | Some g => match_gui_process_name g name
     | None => false
     end
  || match target hook with
     | Some g => match_gui_process_name g name
     | None => false
     end.

(** for( item = proglist->head; ( item && !yes ); item = item->next ) *)
Fixpoint proglist_loop (hook : hook) (item : list list_item) (yes : bool)
  : io bool :=
  match item with
  | [] => return_ yes
  | i :: next =>
      if yes then return_ yes
      else
        yes' <- match name i with
                | Some n => return_ (match_hook_process_name hook n)
                | None => match_hook_process_pid hook (id i)
                end ;;
        proglist_loop hook next yes'
  end.

(** for( item = hooklist->head; ( item && !yes ); item = item->next ) *)
Fixpoint hooklist_loop (hook : hook) (item : list list_item) (yes : bool)
  : bool :=
  match item with
  | [] => yes
  | i :: next =>
      if yes then yes
      else hooklist_loop hook next (id i =? iHook (object hook))
  end.

(** is_hook_wanted(), with G->config passed as [cfg]. *)
Definition is_hook_wanted (cfg : config) (hook : hook) : io bool :=
  let progs := proglist cfg in
  let hooks := hooklist cfg in
  unwanted <-
    (if negb (init_time progs =? 0)
        && (list_type_eqb (type progs) LIST_INCLUDE_PROG
            || list_type_eqb (type progs) LIST_EXCLUDE_PROG)
     then
       yes <- proglist_loop hook (list_head progs) false ;;
       return_ ((yes && list_type_eqb (type progs) LIST_EXCLUDE_PROG)
            || (negb yes && list_type_eqb (type progs) LIST_INCLUDE_PROG))
     else return_ false) ;;
  if unwanted then return_ false (* the hook is not wanted *)
  else
    let unwanted :=
      if negb (init_time hooks =? 0)
         && (list_type_eqb (type hooks) LIST_INCLUDE_HOOK
             || list_type_eqb (type hooks) LIST_EXCLUDE_HOOK)
      then
        let yes := hooklist_loop hook (list_head hooks) false in
        (yes && list_type_eqb (type hooks) LIST_EXCLUDE_HOOK)
        || (negb yes && list_type_eqb (type hooks) LIST_INCLUDE_HOOK)
      else false in
    if unwanted then return_ false (* the hook is not wanted *)
    else return_ true (* the hook is wanted *).

(** Modelled from the spec: match(), which the merge loop calls and diff.c
    does not define, is the filter is_hook_wanted(). *)
Definition match_ (cfg : config) (hook : hook) : io bool :=
  is_hook_wanted cfg hook.

(** ** Comparing two gui structs *)

(** The local struct of print_diff_gui(). *)
Record gui_stuff := {
  stuff_pvWin32ThreadInfo : Z;
  stuff_pvTeb : Z;
  tid : Z;
  pid : Z;
  stuff_ImageName : UNICODE_STRING
}.

Definition unknown : wstring := Eval cbv in L "<unknown>".

(** ZeroMemory, then the image name set to L"<unknown>". *)
Definition empty_ImageName : UNICODE_STRING :=
  let len := Z.of_nat (wcslen unknown) * 2 in
  {| Buffer := Some unknown; Length := len; MaximumLength := len + 2 |}.

Definition empty_stuff : gui_stuff :=
  {| stuff_pvWin32ThreadInfo := 0; stuff_pvTeb := 0; tid := 0; pid := 0;
     stuff_ImageName := empty_ImageName |}.

(** The assignments under if( a ) and if( b ). *)
Definition fill_stuff (a : option gui) : gui_stuff :=
  match a with
  | None => empty_stuff
  | Some a =>
      {| stuff_pvWin32ThreadInfo := pvWin32ThreadInfo a;
         stuff_pvTeb := pvTeb a;
         tid := match sti a with
                | Some t => UniqueThread (ClientId t)
                | None => 0
                end;
         pid := match spi a with
                | Some p => UniqueProcessId p
                | None => 0
                end;
         stuff_ImageName :=
           match spi a with
           | Some p =>
               match Buffer (ImageName p) with
               | Some _ => ImageName p
               | None => empty_ImageName
               end
           | None => empty_ImageName
           end |}
  end.

(** The memory a Buffer points to; the buffers print_diff_gui compares are
    never NULL. *)
Definition deref (p : option wstring) : wstring :=
  match p with
  | Some s => s
  | None => []
  end.

(** The condition of the if that returns FALSE. *)
Definition same_stuff (oldstuff newstuff : gui_stuff) : bool :=
  (stuff_pvWin32ThreadInfo oldstuff =? stuff_pvWin32ThreadInfo newstuff)
  && (stuff_pvTeb oldstuff =? stuff_pvTeb newstuff)
  && (tid oldstuff =? tid newstuff)
  && (pid oldstuff =? pid newstuff)
  && (Length (stuff_ImageName oldstuff) =? Length (stuff_ImageName newstuff))
  && (wcsncmp (deref (Buffer (stuff_ImageName oldstuff)))
              (deref (Buffer (stuff_ImageName newstuff)))
              (Z.to_nat (Length (stuff_ImageName oldstuff))) =? 0).

(** print_diff_gui(): nonzero (true) if something is printed. *)
Definition print_diff_gui (a b : option gui) (threadname : string) : io bool :=
  let oldstuff := fill_stuff a in
  let newstuff := fill_stuff b in
  if same_stuff oldstuff newstuff then return_ false
  else
    print (gui_changed threadname a b) ;;
    return_ true.

Definition is_NULL {A} (p : option A) : bool :=
  match p with
  | Some _ => false
  | None => true
  end.

(** ** Memory read through a pointer of another type

    print_diff_gui( "owner", a->owner, b->owner ) in print_diff_hook() gives
    the address of a string literal to the parameter [a], a struct gui
    pointer, and the address of a struct gui to the parameter [threadname],
    a string. diff.c does not tell what is read at these addresses: it is
    given by a [reading]. The reads themselves are taken to succeed. *)
Record reading := {
  literal_as_gui : string -> gui;   (* the struct gui read at a literal *)
  gui_as_text : gui -> string       (* the text read at a struct gui *)
}.

(** A reading: nothing but zero bytes at either address. *)
Definition blank_reading : reading :=
  {| literal_as_gui := fun _ => {| pvWin32ThreadInfo := 0; pvTeb := 0;
                                   sti := None; spi := None |};
     gui_as_text := fun _ => EmptyString |}.

Section Reading.

Variable mem : reading.

(** The call print_diff_gui( literal, x, y ) as print_diff_hook() writes
    it, argument by argument against the parameters ( a, b, threadname ) of
    print_diff_gui(): [a] is the literal, which is not NULL and is read as
    a struct gui; [b] is x; [threadname] is y, the guard
    FAIL_IF( !threadname ) of print_diff_gui() is on it, and its text is
    what is read at the struct gui. *)
Definition print_diff_gui_call (literal : string) (x y : option gui)
  : io bool :=
  let a := Some (literal_as_gui mem literal) in
  let b := x in
  let threadname := y in
  FAIL_IF (is_NULL threadname) ;;
  match threadname with
  | Some g => print_diff_gui a b (gui_as_text mem g)
  | None => return_ false
  end.

(** ** Comparing two hook structs *)

(** print_hook_notice_begin(): the [begin] header with the name of the
    difference, the HOOK, the desktop name, and the owner, origin and
    target threads of [b]. *)
Definition print_hook_notice_begin (b : hook) (deskname : wstring)
  (difftype : difftype) : io unit :=
  print (hook_notice_begin b deskname difftype).

(** print_hook_notice_end(): the [end] header. *)
Definition print_hook_notice_end : io unit := print hook_notice_end.

(** The three parts printed for a changed flags field. *)
Definition print_flags_parts (o : flags_owner) (a_flags b_flags : Z)
  : io unit :=
  (let temp := to_BYTE (Z.land a_flags b_flags) in
   when (negb (temp =? 0)) (print (flags_same o temp))) ;;
  (let temp := to_BYTE (Z.land a_flags (Z.lnot b_flags)) in
   when (negb (temp =? 0)) (print (flags_removed o temp))) ;;
  (let temp := to_BYTE (Z.land b_flags (Z.lnot a_flags)) in
   when (negb (temp =? 0)) (print (flags_added o temp))).

(** print_diff_hook(). The local [modified] is tested and set in the
    first branch only. The three calls of print_diff_gui() are embedded as
    written, the literal first, then the context of the old record, then
    that of the new record; their result is not used. *)
Definition print_diff_hook (a b : hook) (deskname : wstring) : io unit :=
  let modified := false in
  when (negb (bFlags (entry a) =? bFlags (entry b)))
    (when (negb modified)
       (print_hook_notice_begin b deskname HOOK_MODIFIED) ;;
     print handleentry_flags_changed ;;
     print_flags_parts of_HANDLEENTRY (bFlags (entry a)) (bFlags (entry b))) ;;
  print_diff_gui_call "owner" (owner a) (owner b) ;;
  when (negb (h (head (object a)) =? h (head (object b))))
    (print (handle_changed (h (head (object a))) (h (head (object b))))) ;;
  when (negb (cLockObj (head (object a)) =? cLockObj (head (object b))))
    (print (lock_count_changed (cLockObj (head (object a)))
                               (cLockObj (head (object b))))) ;;
  print_diff_gui_call "origin" (origin a) (origin b) ;;
  when (negb (rpdesk1 (object a) =? rpdesk1 (object b)))
    (print (rpdesk1_changed (rpdesk1 (object a)) (rpdesk1 (object b)))) ;;
  when (negb (pSelf (object a) =? pSelf (object b)))
    (print (kernel_address_changed (pSelf (object a)) (pSelf (object b)))) ;;
  when (negb (phkNext (object a) =? phkNext (object b)))
    (print (chain_modified (phkNext (object a)) (phkNext (object b)))) ;;
  when (negb (iHook (object a) =? iHook (object b)))
    (print (hook_id_changed (iHook (object a)) (iHook (object b)))) ;;
  when (negb (offPfn (object a) =? offPfn (object b)))
    (print (function_offset_changed (offPfn (object a)) (offPfn (object b)))) ;;
  when (negb (flags (object a) =? flags (object b)))
    (print hook_flags_changed ;;
     print_flags_parts of_HOOK (flags (object a)) (flags (object b))) ;;
  when (negb (ihmod (object a) =? ihmod (object b)))
    (print (module_index_changed (ihmod (object a)) (ihmod (object b)))) ;;
  print_diff_gui_call "target" (target a) (target b) ;;
  when (negb (rpdesk2 (object a) =? rpdesk2 (object b)))
    (print (rpdesk2_changed (rpdesk2 (object a)) (rpdesk2 (object b)))).

(** ** Comparing the hooks of one desktop *)

(** A hook notice: [begin] header, [end] header. *)
Definition print_hook_notice (b : hook) (deskname : wstring) (d : difftype)
  : io unit :=
  print_hook_notice_begin b deskname d ;;
  print_hook_notice_end.

(** The first while loop of print_diff_desktop_hook_items(), from the
    cursors [a_hi] and [b_hi] on; it returns the cursors it ends with.
    The array reads succeed exactly when the loop condition
    a_hi < a->hook_count && b_hi < b->hook_count holds. *)
Equations? merge_while (cfg : config) (deskname : wstring)
  (a b : desktop_hook_item) (a_hi b_hi : nat) : io (nat * nat)
  by wf ((hook_count a - a_hi) + (hook_count b - b_hi))%nat lt :=
merge_while cfg deskname a b a_hi b_hi
  with inspect (nth_error (hook_arr a) a_hi) := {
  | exist _ None _ => return_ (a_hi, b_hi)
  | exist _ (Some a_hook) Ha
    with inspect (nth_error (hook_arr b) b_hi) := {
    | exist _ None _ => return_ (a_hi, b_hi)
    | exist _ (Some b_hook) Hb =>
        let ret := compare_hook a_hook b_hook in
        if ret <? 0 then (* hook removed *)
          (wanted <- match_ cfg a_hook ;;
           when wanted (print_hook_notice a_hook deskname HOOK_REMOVED)) ;;
          merge_while cfg deskname a b (S a_hi) b_hi
        else if ret >? 0 then (* hook added *)
          (wanted <- match_ cfg b_hook ;;
           when wanted (print_hook_notice b_hook deskname HOOK_ADDED)) ;;
          merge_while cfg deskname a b a_hi (S b_hi)
        else
          print_diff_hook a_hook b_hook deskname ;;
          merge_while cfg deskname a b (S a_hi) (S b_hi) } }.
Proof.
  all: assert (a_hi < hook_count a /\ b_hi < hook_count b)%nat
    by (split; apply nth_error_Some; congruence).
  all: lia.
Qed.

(** The two trailing while loops: a notice for every element of the array
    from the cursor on. [d] is HOOK_REMOVED for the array of a and
    HOOK_ADDED for the array of b. *)
Equations? notice_while (d : difftype) (deskname : wstring)
  (x : desktop_hook_item) (hi : nat) : io nat
  by wf (hook_count x - hi)%nat lt :=
notice_while d deskname x hi with inspect (nth_error (hook_arr x) hi) := {
  | exist _ None _ => return_ hi
  | exist _ (Some x_hook) Hx =>
      print_hook_notice_begin x_hook deskname d ;;
      print_hook_notice_end ;;
      notice_while d deskname x (S hi) }.
Proof.
  assert (hi < hook_count x)%nat by (apply nth_error_Some; congruence).
  lia.
Qed.

(** a->desktop == b->desktop, on pointers that are not NULL. *)
Definition same_desktop (p q : option desktop_item) : bool :=
  match p, q with
  | Some x, Some y => desktop_ptr x =? desktop_ptr y
  | _, _ => false
  end.

(** b->desktop->pwszDesktopName, read after the guards. *)
Definition desktop_name (p : option desktop_item) : wstring :=
  match p with
  | Some x => pwszDesktopName x
  | None => []
  end.

(** The three loops of print_diff_desktop_hook_items(), entered with the
    cursors [a_hi] and [b_hi]. *)
Definition loops_from (cfg : config) (deskname : wstring)
  (a b : desktop_hook_item) (a_hi b_hi : nat) : io unit :=
  hi <- merge_while cfg deskname a b a_hi b_hi ;;
  notice_while HOOK_REMOVED deskname a (fst hi) ;; (* hooks removed *)
  notice_while HOOK_ADDED deskname b (snd hi) ;;   (* hooks added *)
  return_ tt.

(** a_hi = 0, b_hi = 0; and the three loops. *)
Definition diff_loops (cfg : config) (deskname : wstring)
  (a b : desktop_hook_item) : io unit :=
  loops_from cfg deskname a b 0 0.

(** print_diff_desktop_hook_items() *)
Definition print_diff_desktop_hook_items (cfg : config)
  (a b : desktop_hook_item) : io unit :=
  FAIL_IF (is_NULL (desktop a)) ;;
  FAIL_IF (is_NULL (desktop b)) ;;
  FAIL_IF (negb (same_desktop (desktop a) (desktop b))) ;;
  FAIL_IF (negb (hook_max a =? hook_max b)) ;;
  let deskname := desktop_name (desktop b) in
  diff_loops cfg deskname a b.

(** ** Comparing the hooks of all desktops *)

(** for( a = list1->head, b = list2->head; ( a && b ); a = a->next,
    b = b->next ); it returns the a and b it ends with. *)
Fixpoint hook_lists_for (cfg : config) (a b : desktop_hook_list)
  : io (desktop_hook_list * desktop_hook_list) :=
  match a, b with
  | x :: a_next, y :: b_next =>
      print_diff_desktop_hook_items cfg x y ;;
      hook_lists_for cfg a_next b_next
  | _, _ => return_ (a, b)
  end.

(** print_diff_desktop_hook_lists() *)
Definition print_diff_desktop_hook_lists (cfg : config)
  (list1 list2 : desktop_hook_list) : io unit :=
  ab <- hook_lists_for cfg list1 list2 ;;
  when (negb (is_NULL (hd_error (fst ab)))
        || negb (is_NULL (hd_error (snd ab))))
    (MSG_FATAL "The desktop hook stores could not be fully compared." ;;
     exit 1).


(** * Specification-side definitions *)

(** ** The merge as a classification

    The spec describes the three loops as a sorted merge-join that
    classifies every record. [merge_join] follows these words; [perform]
    is what diff.c does for a record so classified, in the main loop
    ([merging]) or in one of the two trailing loops ([leftover]). *)

Inductive phase := merging | leftover.

Inductive verdict :=
| Removed (p : phase) (a : hook)
| Added (p : phase) (b : hook)
| Compared (a b : hook).

Fixpoint merge_join (old : list hook) : list hook -> list verdict :=
  fix merge_new (new : list hook) : list verdict :=
    match old, new with
    | [], _ => map (Added leftover) new
    | _, [] => map (Removed leftover) old
    | a :: old', b :: new' =>
        if key a <? key b then Removed merging a :: merge_join old' new
        else if key b <? key a then Added merging b :: merge_new new'
        else Compared a b :: merge_join old' new'
    end.

(** The verdicts on what is left of two arrays at the cursors. *)
Definition merge_join_from (a b : desktop_hook_item) (a_hi b_hi : nat)
  : list verdict :=
  merge_join (skipn a_hi (hook_arr a)) (skipn b_hi (hook_arr b)).

Definition perform (cfg : config) (deskname : wstring) (v : verdict)
  : io unit :=
  match v with
  | Removed merging a =>
      wanted <- is_hook_wanted cfg a ;;
      when wanted (print_hook_notice a deskname HOOK_REMOVED)
  | Removed leftover a => print_hook_notice a deskname HOOK_REMOVED
  | Added merging b =>
      wanted <- is_hook_wanted cfg b ;;
      when wanted (print_hook_notice b deskname HOOK_ADDED)
  | Added leftover b => print_hook_notice b deskname HOOK_ADDED
  | Compared a b => print_diff_hook a b deskname
  end.

Fixpoint for_each {X} (f : X -> io unit) (l : list X) : io unit :=
  match l with
  | [] => return_ tt
  | x :: l' => f x ;; for_each f l'
  end.

(** A call of the filter returned nonzero. *)
Definition holds (m : io bool) : bool :=
  match outcome m with
  | Return true => true
  | _ => false
  end.

(** The three thread contexts of a record are there (none is NULL). *)
Definition has_contexts (b : hook) : Prop :=
  owner b <> None /\ origin b <> None /\ target b <> None.

Definition contexts_present (b : hook) : bool :=
  negb (is_NULL (owner b)) && negb (is_NULL (origin b))
  && negb (is_NULL (target b)).

(** A verdict whose comparison, if it is one, is of a new record with its
    three contexts. *)
Definition comparable (v : verdict) : Prop :=
  match v with
  | Compared _ y => has_contexts y
  | _ => True
  end.

(** The body of the for loop of print_diff_desktop_hook_lists() on a pair
    of desktop hook items. *)
Definition diff_pair (cfg : config)
  (ab : desktop_hook_item * desktop_hook_item) : io unit :=
  print_diff_desktop_hook_items cfg (fst ab) (snd ab).

(** The identity keys of an array, in its order. *)
Definition keys (l : list hook) : list Z := map key l.

(** Strictly ascending identity keys (hence no duplicate keys). *)
Definition ascending (l : list hook) : Prop := Sorted Z.lt (keys l).

Definition is_notice (o : output) : bool :=
  match o with
  | hook_notice_begin _ _ _ => true
  | _ => false
  end.

(** The number of hook notices (Added, Removed, Modified) in an output. *)
Definition notices (out : list output) : nat :=
  List.length (filter is_notice out).

(** The classified records for which something is printed: the change
    events of the spec, one per record at most. *)
Definition events (cfg : config) (deskname : wstring) (l : list verdict)
  : list verdict :=
  filter (fun v =>
            negb (is_NULL (hd_error (printed (perform cfg deskname v))))) l.

(** ** The filter policy in the spec's words *)

Inductive rule_mode := rule_disabled | rule_include | rule_exclude.

Definition program_rule (cfg : config) : rule_mode :=
  if init_time (proglist cfg) =? 0 then rule_disabled
  else match type (proglist cfg) with
       | LIST_INCLUDE_PROG => rule_include
       | LIST_EXCLUDE_PROG => rule_exclude
       | _ => rule_disabled
       end.

Definition hook_type_rule (cfg : config) : rule_mode :=
  if init_time (hooklist cfg) =? 0 then rule_disabled
  else match type (hooklist cfg) with
       | LIST_INCLUDE_HOOK => rule_include
       | LIST_EXCLUDE_HOOK => rule_exclude
       | _ => rule_disabled
       end.

(** The characters of a C string: those before the first NUL. *)
Definition c_string (s : wstring) : wstring := firstn (wcslen s) s.

Fixpoint wstring_eqb (s t : wstring) : bool :=
  match s, t with
  | [], [] => true
  | c :: s', d :: t' => (c =? d) && wstring_eqb s' t'
  | _, _ => false
  end.

(** Equality of two names up to the case of the letters A..Z. *)
Definition same_name_nocase (s t : wstring) : bool :=
  wstring_eqb (map towlower (c_string s)) (map towlower (c_string t)).

(** The process id of a thread context as the int that pid entries are. *)
Definition context_pid (p : SYSTEM_PROCESS_INFORMATION) : Z :=
  to_int (to_DWORD (UniqueProcessId p)).

(** A thread context matches a list entry: by name when the entry has one,
    else by pid. An absent context, or one whose process was not resolved,
    matches nothing. *)
Definition context_matches (i : list_item) (g : option gui) : bool :=
  match g with
  | Some g =>
      match spi g with
      | Some p =>
          match name i with
          | Some n =>
              match Buffer (ImageName p) with
              | Some buf => same_name_nocase buf n
              | None => false
              end
          | None => id i =? context_pid p
          end
      | None => false
      end
  | None => false
  end.

Definition contexts (hook : hook) : list (option gui) :=
  [owner hook; origin hook; target hook].

Definition matches_program_rule (cfg : config) (hook : hook) : bool :=
  existsb (fun i => existsb (context_matches i) (contexts hook))
          (list_head (proglist cfg)).

Definition matches_hook_type_rule (cfg : config) (hook : hook) : bool :=
  existsb (fun i => id i =? iHook (object hook)) (list_head (hooklist cfg)).

Definition passes (mode : rule_mode) (matched : bool) : bool :=
  match mode with
  | rule_disabled => true
  | rule_include => matched
  | rule_exclude => negb matched
  end.

Definition wanted (cfg : config) (hook : hook) : bool :=
  passes (program_rule cfg) (matches_program_rule cfg hook)
  && passes (hook_type_rule cfg) (matches_hook_type_rule cfg hook).

(** Every pid entry of the program list is a pid, that is not 0. *)
Definition pids_nonzero (cfg : config) : Prop :=
  Forall (fun i => name i = None -> id i <> 0) (list_head (proglist cfg)).

(** The process ids of the thread contexts of a record. *)
Definition record_pids (hook : hook) : list Z :=
  flat_map (fun g => match g with
                     | Some g => match spi g with
                                 | Some p => [UniqueProcessId p]
                                 | None => []
                                 end
                     | None => []
                     end) (contexts hook).

Definition pid_entry (pid : Z) : list_item := {| name := None; id := pid |}.
Definition type_entry (t : Z) : list_item := {| name := None; id := t |}.

(** The policy "exclude pid=100, include type=2". *)
Definition exclude_100_include_2 : config :=
  {| proglist := {| init_time := 1; type := LIST_EXCLUDE_PROG;
                    list_head := [pid_entry 100] |};
     hooklist := {| init_time := 1; type := LIST_INCLUDE_HOOK;
                    list_head := [type_entry 2] |} |}.

(** ** Thread contexts as the comparator sees them *)

(** Byte [j] of the memory a wide string points to, low byte first. *)
Definition byte_at (s : wstring) (j : nat) : Z :=
  let c := wchar_at s (Nat.div2 j) in
  if Nat.even j then c mod 256 else c / 256.

(** The Length bytes of an image name. *)
Definition name_bytes (u : UNICODE_STRING) : list Z :=
  map (byte_at (deref (Buffer u))) (List.seq 0 (Z.to_nat (Length u))).

(** The six attributes of a thread context are identical. *)
Definition identical (x y : gui_stuff) : Prop :=
  stuff_pvTeb x = stuff_pvTeb y
  /\ stuff_pvWin32ThreadInfo x = stuff_pvWin32ThreadInfo y
  /\ tid x = tid y
  /\ pid x = pid y
  /\ Length (stuff_ImageName x) = Length (stuff_ImageName y)
  /\ name_bytes (stuff_ImageName x) = name_bytes (stuff_ImageName y).

(** The image names agree as wide strings: the same characters up to the
    first NUL, looking at Length characters at most. *)
Definition names_agree (x y : gui_stuff) : Prop :=
  let n := Z.to_nat (Length (stuff_ImageName x)) in
  firstn n (c_string (deref (Buffer (stuff_ImageName x))))
  = firstn n (c_string (deref (Buffer (stuff_ImageName y)))).

(** An image name whose Length is the byte length of the NUL-terminated
    string in its buffer, as the sentinel is built. *)
Definition counted_string (u : UNICODE_STRING) : Prop :=
  Length u = Z.of_nat (wcslen (deref (Buffer u))) * 2.

Definition well_named (g : option gui) : Prop :=
  counted_string (stuff_ImageName (fill_stuff g)).

(** A context that shows as the sentinel: NULL addresses, zero ids and the
    image name "<unknown>". *)
Definition shows_unknown (g : gui) : Prop :=
  pvWin32ThreadInfo g = 0 /\ pvTeb g = 0
  /\ tid (fill_stuff (Some g)) = 0
  /\ pid (fill_stuff (Some g)) = 0
  /\ Length (stuff_ImageName (fill_stuff (Some g))) = 18
  /\ c_string (deref (Buffer (stuff_ImageName (fill_stuff (Some g)))))
     = unknown.

(** A context whose process is resolved: a pid that is not 0. *)
Definition resolved (g : gui) : Prop :=
  exists p, spi g = Some p /\ UniqueProcessId p <> 0.

(** ** Example inputs *)

(** A GUI thread of the process [p] named [image]. *)
Definition gui_of (p : Z) (image : wstring) : gui :=
  let len := Z.of_nat (List.length image) * 2 in
  {| pvWin32ThreadInfo := 4096 + p; pvTeb := 8192 + p;
     sti := Some {| ClientId := {| UniqueProcess := p;
                                   UniqueThread := p + 4 |} |};
     spi := Some {| UniqueProcessId := p;
                    ImageName := {| Length := len; MaximumLength := len + 2;
                                    Buffer := Some image |} |} |}.

(** A hook with identity key [k] and hook id [t], owned by [o]. *)
Definition hook_of (k t : Z) (o : option gui) : hook :=
  {| key := k;
     entry := {| pHead := 65536 + k; bFlags := 1 |};
     object := {| head := {| h := k; cLockObj := 1 |};
                  rpdesk1 := 7; pSelf := 65536 + k; phkNext := 0; iHook := t;
                  offPfn := 256; flags := 1; ihmod := 0; rpdesk2 := 7 |};
     owner := o; origin := o; target := None |}.

Definition notepad : wstring := Eval cbv in L "notepad.exe".

Definition disabled_list : list_store :=
  {| init_time := 0; type := LIST_OTHER_TYPE; list_head := [] |}.

(** The policy "exclude pid=0". *)
Definition exclude_pid_0 : config :=
  {| proglist := {| init_time := 1; type := LIST_EXCLUDE_PROG;
                    list_head := [pid_entry 0] |};
     hooklist := disabled_list |}.

(** The policy "exclude pid=100". *)
Definition exclude_pid_100 : config :=
  {| proglist := {| init_time := 1; type := LIST_EXCLUDE_PROG;
                    list_head := [pid_entry 100] |};
     hooklist := disabled_list |}.

Definition no_filter : config :=
  {| proglist := disabled_list; hooklist := disabled_list |}.

Definition hook_200_2 : hook := hook_of 1 2 (Some (gui_of 200 notepad)).
Definition hook_100_2 : hook := hook_of 3 2 (Some (gui_of 100 notepad)).

Definition Default : desktop_item :=
  {| desktop_ptr := 4660; pwszDesktopName := L "Default" |}.

Definition Winlogon : desktop_item :=
  {| desktop_ptr := 4680; pwszDesktopName := L "Winlogon" |}.

Definition desktop_hooks (d : desktop_item) (l : list hook) (max : Z)
  : desktop_hook_item :=
  {| desktop := Some d; hook_arr := l; hook_max := max |}.

(** A hook with identity key [k] and hook id [t] whose owner, origin and
    target are the thread [g]. *)
Definition hook_with (k t : Z) (g : gui) : hook :=
  {| key := k;
     entry := {| pHead := 65536 + k; bFlags := 1 |};
     object := {| head := {| h := k; cLockObj := 1 |};
                  rpdesk1 := 7; pSelf := 65536 + k; phkNext := 0; iHook := t;
                  offPfn := 256; flags := 1; ihmod := 0; rpdesk2 := 7 |};
     owner := Some g; origin := Some g; target := Some g |}.

Definition hook_300_2 : hook := hook_with 1 2 (gui_of 300 notepad).

(** The keys 1, 3, 5 and 1, 4, 5 again, of records with their contexts. *)
Definition old_1_3_5_threads : desktop_hook_item :=
  desktop_hooks Default
    [hook_with 1 2 (gui_of 300 notepad); hook_with 3 2 (gui_of 300 notepad);
     hook_with 5 2 (gui_of 300 notepad)] 8.

Definition new_1_4_5_threads : desktop_hook_item :=
  desktop_hooks Default
    [hook_with 1 2 (gui_of 300 notepad); hook_with 4 2 (gui_of 300 notepad);
     hook_with 5 2 (gui_of 300 notepad)] 8.


(** Two thread contexts whose image names, of Length 6, differ after a
    NUL: "a\0b" and "a\0c". *)
Definition gui_named (s : wstring) (len : Z) : gui :=
  {| pvWin32ThreadInfo := 4096; pvTeb := 8192;
     sti := None;
     spi := Some {| UniqueProcessId := 100;
                    ImageName := {| Length := len; MaximumLength := len + 2;
                                    Buffer := Some s |} |} |}.

Definition gui_a_nul_b : gui := gui_named [97; 0; 98] 6.
Definition gui_a_nul_c : gui := gui_named [97; 0; 99] 6.

(** Two thread contexts whose image name, of Length 2, is "a", in buffers
    that go on with "x" and with "y". *)
Definition gui_a_then_x : gui := gui_named [97; 120] 2.
Definition gui_a_then_y : gui := gui_named [97; 121] 2.

(** The keys 1, 3, 5 in the old snapshot and 1, 4, 5 in the new one. *)
Definition old_1_3_5 : desktop_hook_item :=
  desktop_hooks Default
    [hook_of 1 2 None; hook_of 3 2 None; hook_of 5 2 None] 8.

Definition new_1_4_5 : desktop_hook_item :=
  desktop_hooks Default
    [hook_of 1 2 None; hook_of 4 2 None; hook_of 5 2 None] 8.

(** A thread context named "<unknown>", of pid 0, with NULL addresses. *)
Definition gui_unknown : gui :=
  {| pvWin32ThreadInfo := 0; pvTeb := 0; sti := None;
     spi := Some {| UniqueProcessId := 0;
                    ImageName := {| Length := 18; MaximumLength := 20;
                                    Buffer := Some unknown |} |} |}.

Definition Disconnect : desktop_item :=
  {| desktop_ptr := 4700; pwszDesktopName := L "Disconnect" |}.

(** Two session snapshots, of two and of three desktops. *)
Definition session_2 : desktop_hook_list :=
  [desktop_hooks Default [hook_200_2] 8; desktop_hooks Winlogon [] 8].

Definition session_3 : desktop_hook_list :=
  [desktop_hooks Default [] 8; desktop_hooks Winlogon [] 8;
   desktop_hooks Disconnect [] 8].

(** ** The filter, when it stops the process *)

(** A list entry matches a record: one of its three thread contexts does. *)
Definition entry_matches (hook : hook) (i : list_item) : bool :=
  existsb (context_matches i) (contexts hook).

(** A pid entry (an entry without a name) whose pid is 0. *)
Definition is_pid_0 (i : list_item) : bool :=
  is_NULL (name i) && (id i =? 0).

(** The walk over a program list comes to a pid entry 0 before it comes to
    an entry that matches the record. *)
Fixpoint walks_to_pid_0 (hook : hook) (items : list list_item) : bool :=
  match items with
  | [] => false
  | i :: next =>
      if is_pid_0 i then true
      else if entry_matches hook i then false
      else walks_to_pid_0 hook next
  end.

(** The program rule is enabled and its walk comes to a pid entry 0. *)
Definition filter_stops (cfg : config) (hook : hook) : bool :=
  match program_rule cfg with
  | rule_disabled => false
  | _ => walks_to_pid_0 hook (list_head (proglist cfg))
  end.

(** ** The two sides of a merge *)





(** The [begin] and [end] headers and the fatal diagnostic. *)
Definition is_header (o : output) : bool :=
  match o with
  | hook_notice_begin _ _ _ | hook_notice_end | fatal_message _ => true
  | _ => false
  end.

(** ** Further example inputs *)

(** A GUI thread without thread and process information. *)
Definition gui_bare : gui :=
  {| pvWin32ThreadInfo := 4096; pvTeb := 8192; sti := None; spi := None |}.

(** The policy "exclude pid=200, pid=0": the pid entry 0 comes second. *)
Definition exclude_pid_200_then_0 : config :=
  {| proglist := {| init_time := 1; type := LIST_EXCLUDE_PROG;
                    list_head := [pid_entry 200; pid_entry 0] |};
     hooklist := disabled_list |}.

(** The policies "exclude pid=100, pid=200" and "exclude pid=200, pid=100,
    pid=100": the same entries in another order, one of them twice. *)
Definition exclude_100_200 : config :=
  {| proglist := {| init_time := 1; type := LIST_EXCLUDE_PROG;
                    list_head := [pid_entry 100; pid_entry 200] |};
     hooklist := disabled_list |}.

Definition exclude_200_100_100 : config :=
  {| proglist := {| init_time := 1; type := LIST_EXCLUDE_PROG;
                    list_head := [pid_entry 200; pid_entry 100;
                                  pid_entry 100] |};
     hooklist := disabled_list |}.

(** The record [x] with other flags in its HOOK. *)
Definition with_flags (x : hook) (v : Z) : hook :=
  {| key := key x; entry := entry x;
     object := {| head := head (object x);
                  rpdesk1 := rpdesk1 (object x); pSelf := pSelf (object x);
                  phkNext := phkNext (object x); iHook := iHook (object x);
                  offPfn := offPfn (object x); flags := v;
                  ihmod := ihmod (object x); rpdesk2 := rpdesk2 (object x) |};
     owner := owner x; origin := origin x; target := target x |}.

(** ** Notices in an output *)

(** Every Added and every Removed header is followed at once by an [end]
    header, and there is no other [end] header: none after a Modified
    header, none alone. *)
Fixpoint well_closed (out : list output) : bool :=
  match out with
  | [] => true
  | hook_notice_begin _ _ HOOK_MODIFIED :: rest => well_closed rest
  | hook_notice_begin _ _ _ :: hook_notice_end :: rest => well_closed rest
  | hook_notice_begin _ _ _ :: _ => false
  | hook_notice_end :: _ => false
  | _ :: rest => well_closed rest
  end.

(** * Properties *)

(** ** Sequencing *)

Lemma seq_return_l {A B} (x : A) (k : io B) : return_ x ;; k = k.
Proof. destruct k; reflexivity. Qed.

Lemma seq_return_r (m : io unit) : m ;; return_ tt = m.
Proof.
  destruct m as [o [[]|s]]; cbn; rewrite ?app_nil_r; reflexivity.
Qed.

Lemma bind_return_l {A B} (x : A) (f : A -> io B) :
  (y <- return_ x ;; f y) = f x.
Proof. unfold bind, return_. destruct (f x); reflexivity. Qed.

Lemma seq_assoc {A B C} (m : io A) (k : io B) (j : io C) :
  (m ;; k) ;; j = m ;; (k ;; j).
Proof.
  destruct m as [o [x|s]], k as [o' [y|s']]; cbn;
    rewrite ?app_assoc; reflexivity.
Qed.

Lemma seq_bind {A B C} (m : io A) (k : io B) (f : B -> io C) :
  (y <- (m ;; k) ;; f y) = m ;; (y <- k ;; f y).
Proof.
  destruct m as [o [x|s]], k as [o' [y|s']]; cbn; try reflexivity.
  destruct (f y); cbn. rewrite app_assoc. reflexivity.
Qed.

Lemma printed_seq {A B} (m : io A) (k : io B) :
  printed (m ;; k)
  = printed m ++ match outcome m with Return _ => printed k | Stop _ => [] end.
Proof.
  destruct m as [o [x|s]]; cbn; rewrite ?app_nil_r; reflexivity.
Qed.

Lemma for_each_map {X Y} (g : X -> Y) (f : Y -> io unit) (l : list X) :
  for_each f (map g l) = for_each (fun x => f (g x)) l.
Proof.
  induction l as [|x l IH]; cbn [for_each map]; congruence.
Qed.

(** The laws used to bring a run into the shape of its specification. *)
Create Rewrite HintDb io.
#[local] Hint Rewrite @seq_return_l @seq_return_r @bind_return_l
  @for_each_map : io.

(** ** The loops of print_diff_desktop_hook_items *)

Lemma nth_error_skipn_cons {X} (l : list X) (i : nat) (x : X) :
  nth_error l i = Some x -> skipn i l = x :: skipn (S i) l.
Proof.
  revert l; induction i as [|i IH]; intros [|y l] H; cbn in *;
    try discriminate.
  - congruence.
  - apply IH in H. rewrite H. destruct l; reflexivity.
Qed.

Lemma nth_error_skipn_nil {X} (l : list X) (i : nat) :
  nth_error l i = None -> skipn i l = [].
Proof.
  intros H. apply skipn_all2, nth_error_None, H.
Qed.

(** Case analysis on an array read that a loop inspects: the element read,
    or nothing past the end of the array. *)
Tactic Notation "read_array" constr(e) "as" ident(x) :=
  let E := fresh "E" in
  generalize (inspect e); intros [[x|] E].

(** The element read is the one an hypothesis names. *)
Ltac read_is x v := assert (x = v) by congruence; subst x.

Lemma notice_while_step d deskname x hi x_hook :
  nth_error (hook_arr x) hi = Some x_hook ->
  notice_while d deskname x hi =
  print_hook_notice_begin x_hook deskname d ;;
  print_hook_notice_end ;;
  notice_while d deskname x (S hi).
Proof.
  intros Hx. rewrite notice_while_equation_1.
  read_array (nth_error (hook_arr x) hi) as y; [|congruence].
  read_is y x_hook. reflexivity.
Qed.

Lemma notice_while_exit d deskname x hi :
  nth_error (hook_arr x) hi = None ->
  notice_while d deskname x hi = return_ hi.
Proof.
  intros Hx. rewrite notice_while_equation_1.
  read_array (nth_error (hook_arr x) hi) as y; [congruence|reflexivity].
Qed.

(** A trailing loop prints a notice for every remaining element. *)
Lemma notice_while_for_each {B} d deskname x (k : io B) : forall n hi,
  (hook_count x - hi <= n)%nat ->
  notice_while d deskname x hi ;; k
  = for_each (fun x_hook => print_hook_notice x_hook deskname d)
             (skipn hi (hook_arr x)) ;; k.
Proof.
  induction n as [|n IH]; intros hi Hn.
  - rewrite notice_while_exit, nth_error_skipn_nil; trivial;
      apply nth_error_None; unfold hook_count in Hn; lia.
  - destruct (nth_error (hook_arr x) hi) as [x_hook|] eqn:Hx.
    + rewrite (notice_while_step _ _ _ _ Hx), (nth_error_skipn_cons _ _ Hx).
      cbn [for_each]. unfold print_hook_notice.
      rewrite !seq_assoc, IH by lia. reflexivity.
    + rewrite notice_while_exit, nth_error_skipn_nil; trivial.
Qed.

Lemma compare_hook_lt a b : (compare_hook a b <? 0) = (key a <? key b).
Proof.
  unfold compare_hook.
  destruct (key a <? key b); [reflexivity|].
  destruct (key b <? key a); reflexivity.
Qed.

Lemma compare_hook_gt a b :
  (key a <? key b) = false -> (compare_hook a b >? 0) = (key b <? key a).
Proof.
  unfold compare_hook. intros ->.
  destruct (key b <? key a); reflexivity.
Qed.

Lemma merge_join_nil_r old : merge_join old [] = map (Removed leftover) old.
Proof. destruct old; reflexivity. Qed.

Section Loops.

Variable cfg : config.
Variable deskname : wstring.
Variables a b : desktop_hook_item.

(** One iteration of the first loop. *)
Lemma merge_while_step a_hi b_hi a_hook b_hook :
  nth_error (hook_arr a) a_hi = Some a_hook ->
  nth_error (hook_arr b) b_hi = Some b_hook ->
  merge_while cfg deskname a b a_hi b_hi =
  if compare_hook a_hook b_hook <? 0 then
    (wanted <- match_ cfg a_hook ;;
     when wanted (print_hook_notice a_hook deskname HOOK_REMOVED)) ;;
    merge_while cfg deskname a b (S a_hi) b_hi
  else if compare_hook a_hook b_hook >? 0 then
    (wanted <- match_ cfg b_hook ;;
     when wanted (print_hook_notice b_hook deskname HOOK_ADDED)) ;;
    merge_while cfg deskname a b a_hi (S b_hi)
  else
    print_diff_hook a_hook b_hook deskname ;;
    merge_while cfg deskname a b (S a_hi) (S b_hi).
Proof.
  intros Ha Hb. rewrite merge_while_equation_1.
  read_array (nth_error (hook_arr a) a_hi) as x; [|congruence].
  read_is x a_hook.
  cbv beta iota delta [merge_while_unfold_clause_1].
  read_array (nth_error (hook_arr b) b_hi) as y; [|congruence].
  read_is y b_hook. reflexivity.
Qed.

(** The first loop ends when a cursor is at the end of its array. *)
Lemma merge_while_exit a_hi b_hi :
  nth_error (hook_arr a) a_hi = None \/ nth_error (hook_arr b) b_hi = None ->
  merge_while cfg deskname a b a_hi b_hi = return_ (a_hi, b_hi).
Proof.
  intros Hab. rewrite merge_while_equation_1.
  read_array (nth_error (hook_arr a) a_hi) as x; [|reflexivity].
  cbv beta iota delta [merge_while_unfold_clause_1].
  read_array (nth_error (hook_arr b) b_hi) as y; [|reflexivity].
  destruct Hab; congruence.
Qed.

Lemma loops_from_end a_hi b_hi :
  nth_error (hook_arr a) a_hi = None \/ nth_error (hook_arr b) b_hi = None ->
  loops_from cfg deskname a b a_hi b_hi
  = for_each (perform cfg deskname) (merge_join_from a b a_hi b_hi).
Proof.
  intros Hab. unfold loops_from, merge_join_from.
  rewrite (merge_while_exit _ _ Hab), bind_return_l. cbn [fst snd].
  rewrite (notice_while_for_each _ _ _ _ (n := hook_count a)) by lia.
  rewrite (notice_while_for_each _ _ _ _ (n := hook_count b)) by lia.
  destruct Hab as [Ha|Hb].
  - rewrite (nth_error_skipn_nil _ _ Ha). cbn [for_each merge_join].
    destruct (skipn b_hi (hook_arr b)); autorewrite with io; reflexivity.
  - rewrite (nth_error_skipn_nil _ _ Hb), merge_join_nil_r.
    cbn [for_each]. autorewrite with io. reflexivity.
Qed.

(** The three loops from any pair of cursors on: the merge of what is
    left of the two arrays. By induction on the number of elements left. *)
Lemma loops_from_cursors : forall n a_hi b_hi,
  (hook_count a - a_hi + (hook_count b - b_hi) <= n)%nat ->
  loops_from cfg deskname a b a_hi b_hi
  = for_each (perform cfg deskname) (merge_join_from a b a_hi b_hi).
Proof.
  induction n as [|n IH]; intros a_hi b_hi Hn.
  - apply loops_from_end.
    destruct (Nat.le_gt_cases (hook_count a) a_hi) as [Hle|Hlt];
      [left|right]; apply nth_error_None; unfold hook_count in *; lia.
  - destruct (nth_error (hook_arr a) a_hi) as [a_hook|] eqn:Ha;
      [|apply loops_from_end; auto].
    destruct (nth_error (hook_arr b) b_hi) as [b_hook|] eqn:Hb;
      [|apply loops_from_end; auto].
    assert (a_hi < hook_count a /\ b_hi < hook_count b)%nat as [Hla Hlb]
      by (split; apply nth_error_Some; congruence).
    unfold loops_from, merge_join_from in *.
    rewrite (merge_while_step _ _ Ha Hb).
    rewrite (nth_error_skipn_cons _ _ Ha), (nth_error_skipn_cons _ _ Hb).
    cbn [merge_join]. rewrite compare_hook_lt.
    destruct (key a_hook <? key b_hook) eqn:Hlt.
    + rewrite seq_bind, IH by lia.
      rewrite (nth_error_skipn_cons _ _ Hb). reflexivity.
    + rewrite (compare_hook_gt _ _ Hlt).
      destruct (key b_hook <? key a_hook) eqn:Hgt.
      * rewrite seq_bind, IH by lia.
        rewrite (nth_error_skipn_cons _ _ Ha). reflexivity.
      * rewrite seq_bind, IH by lia. reflexivity.
Qed.

(** The loops are the merge-join of the two arrays. *)
Lemma diff_loops_merge_join :
  diff_loops cfg deskname a b
  = for_each (perform cfg deskname) (merge_join (hook_arr a) (hook_arr b)).
Proof.
  apply (loops_from_cursors (n := hook_count a + hook_count b) 0 0). lia.
Qed.

End Loops.

(** ** The classification of the merge-join *)

Lemma ascending_strongly l : ascending l -> StronglySorted Z.lt (keys l).
Proof.
  apply Sorted_StronglySorted. intros x y z. apply Z.lt_trans.
Qed.

Lemma sorted_tail {a l} :
  StronglySorted Z.lt (keys (a :: l)) -> StronglySorted Z.lt (keys l).
Proof. intros H. apply StronglySorted_inv in H. apply H. Qed.

Lemma sorted_head_lt {a l x} :
  StronglySorted Z.lt (keys (a :: l)) -> In x l -> key a < key x.
Proof.
  intros H Hx. apply StronglySorted_inv in H. destruct H as [_ H].
  rewrite Forall_forall in H. apply H, in_map, Hx.
Qed.

Lemma in_keys x l : In x l -> In (key x) (keys l).
Proof. apply in_map. Qed.

Lemma sorted_head_not_in {a l} :
  StronglySorted Z.lt (keys (a :: l)) ->
  forall k, k <= key a -> ~ In k (keys l).
Proof.
  intros H k Hk Hin. apply in_map_iff in Hin. destruct Hin as [x [Hx Hin]].
  pose proof (sorted_head_lt H Hin). lia.
Qed.

Lemma merge_join_cons a old b new :
  merge_join (a :: old) (b :: new)
  = if key a <? key b then Removed merging a :: merge_join old (b :: new)
    else if key b <? key a then Added merging b :: merge_join (a :: old) new
    else Compared a b :: merge_join old new.
Proof. reflexivity. Qed.

Lemma merge_join_nil_l new : merge_join [] new = map (Added leftover) new.
Proof. destruct new; reflexivity. Qed.

(** Every verdict is about records of the arrays. *)
Lemma merge_join_sound old new :
  StronglySorted Z.lt (keys old) -> StronglySorted Z.lt (keys new) ->
  forall v, In v (merge_join old new) ->
  match v with
  | Removed _ a => In a old /\ ~ In (key a) (keys new)
  | Added _ b => In b new /\ ~ In (key b) (keys old)
  | Compared a b => In a old /\ In b new /\ key a = key b
  end.
Proof.
  revert new. induction old as [|a old IHold]; intros new Hold Hnew v Hv.
  - rewrite merge_join_nil_l in Hv. apply in_map_iff in Hv.
    destruct Hv as [b [<- Hb]]. split; auto.
  - induction new as [|b new IHnew].
    + rewrite merge_join_nil_r in Hv. apply in_map_iff in Hv.
      destruct Hv as [x [<- Hx]]. split; auto.
    + rewrite merge_join_cons in Hv.
      destruct (key a <? key b) eqn:Hab; [|destruct (key b <? key a) eqn:Hba].
      * apply Z.ltb_lt in Hab. destruct Hv as [<-|Hv].
        { split; [left; reflexivity|]. intros [Hk|Hk]; [lia|].
          revert Hk. apply (sorted_head_not_in Hnew). lia. }
        specialize (IHold (b :: new) (sorted_tail Hold) Hnew v Hv).
        destruct v as [p x|p y|x y].
        -- destruct IHold as [Hx Hn]. split; [right; trivial|trivial].
        -- destruct IHold as [Hy Hn]. split; [trivial|].
           intros [Hk|Hin]; [|auto].
           destruct Hy as [->|Hy]; [lia|].
           pose proof (sorted_head_lt Hnew Hy). lia.
        -- destruct IHold as [Hx [Hy Hk]]. auto with datatypes.
      * apply Z.ltb_lt in Hba. destruct Hv as [<-|Hv].
        { split; [left; reflexivity|]. intros [Hk|Hk]; [lia|].
          revert Hk. apply (sorted_head_not_in Hold). lia. }
        specialize (IHnew (sorted_tail Hnew) Hv).
        destruct v as [p x|p y|x y].
        -- destruct IHnew as [Hx Hn]. split; [trivial|].
           intros [Hk|Hin]; [|auto].
           destruct Hx as [->|Hx]; [lia|].
           pose proof (sorted_head_lt Hold Hx). lia.
        -- destruct IHnew as [Hy Hn]. split; [right; trivial|trivial].
        -- destruct IHnew as [Hx [Hy Hk]]. auto with datatypes.
      * apply Z.ltb_ge in Hab, Hba. assert (Hk : key a = key b) by lia.
        destruct Hv as [<-|Hv]; [auto with datatypes|].
        specialize (IHold new (sorted_tail Hold) (sorted_tail Hnew) v Hv).
        destruct v as [p x|p y|x y].
        -- destruct IHold as [Hx Hn]. split; [right; trivial|].
           intros [Hb|Hin]; [|auto].
           pose proof (sorted_head_lt Hold Hx). lia.
        -- destruct IHold as [Hy Hn]. split; [right; trivial|].
           intros [Hb|Hin]; [|auto].
           pose proof (sorted_head_lt Hnew Hy). lia.
        -- intuition auto with datatypes.
Qed.

(** Every record of the old array is classified. *)
Lemma merge_join_old old new a :
  In a old ->
  (exists p, In (Removed p a) (merge_join old new))
  \/ (exists b, In (Compared a b) (merge_join old new)).
Proof.
  revert new. induction old as [|x old IHold]; intros new Ha; [destruct Ha|].
  induction new as [|y new IHnew].
  - left. exists leftover. rewrite merge_join_nil_r. apply in_map, Ha.
  - rewrite merge_join_cons.
    destruct (key x <? key y); [|destruct (key y <? key x)].
    + destruct Ha as [->|Ha].
      * left. exists merging. left. reflexivity.
      * destruct (IHold (y :: new) Ha) as [[p H]|[b H]];
          [left; exists p|right; exists b]; right; exact H.
    + destruct IHnew as [[p H]|[b H]];
        [left; exists p|right; exists b]; right; exact H.
    + destruct Ha as [->|Ha].
      * right. exists y. left. reflexivity.
      * destruct (IHold new Ha) as [[p H]|[b H]];
          [left; exists p|right; exists b]; right; exact H.
Qed.

(** Every record of the new array is classified. *)
Lemma merge_join_new old new b :
  In b new ->
  (exists p, In (Added p b) (merge_join old new))
  \/ (exists a, In (Compared a b) (merge_join old new)).
Proof.
  revert new. induction old as [|x old IHold]; intros new Hb.
  - left. exists leftover. rewrite merge_join_nil_l. apply in_map, Hb.
  - induction new as [|y new IHnew]; [destruct Hb|].
    rewrite merge_join_cons.
    destruct (key x <? key y); [|destruct (key y <? key x)].
    + destruct (IHold (y :: new) Hb) as [[p H]|[a H]];
        [left; exists p|right; exists a]; right; exact H.
    + destruct Hb as [->|Hb].
      * left. exists merging. left. reflexivity.
      * destruct (IHnew Hb) as [[p H]|[a H]];
          [left; exists p|right; exists a]; right; exact H.
    + destruct Hb as [->|Hb].
      * right. exists x. left. reflexivity.
      * destruct (IHold new Hb) as [[p H]|[a H]];
          [left; exists p|right; exists a]; right; exact H.
Qed.

(** In a strictly ascending array a key names one record. *)
Lemma ascending_key_inj l x y :
  StronglySorted Z.lt (keys l) -> In x l -> In y l -> key x = key y -> x = y.
Proof.
  induction l as [|a l IH]; intros Hl Hx Hy Hk; [destruct Hx|].
  destruct Hx as [->|Hx], Hy as [->|Hy]; trivial.
  - pose proof (sorted_head_lt Hl Hy). lia.
  - pose proof (sorted_head_lt Hl Hx). lia.
  - apply IH; trivial. apply (sorted_tail Hl).
Qed.

Lemma merge_join_length old new :
  (List.length (merge_join old new) <= List.length old + List.length new)%nat.
Proof.
  revert new. induction old as [|a old IHold]; intros new.
  - rewrite merge_join_nil_l, length_map. cbn. lia.
  - induction new as [|b new IHnew].
    + rewrite merge_join_nil_r, length_map. lia.
    + rewrite merge_join_cons.
      destruct (key a <? key b); [|destruct (key b <? key a)];
        cbn [List.length].
      * specialize (IHold (b :: new)). cbn [List.length] in IHold. lia.
      * cbn [List.length] in IHnew. lia.
      * specialize (IHold new). lia.
Qed.

(** ** The filter *)

Lemma towlower_0 c : (towlower c =? 0) = (c =? 0).
Proof.
  unfold towlower.
  destruct ((65 <=? c) && (c <=? 90)) eqn:E; [|reflexivity].
  apply andb_true_iff in E. destruct E as [E1 E2].
  apply Z.leb_le in E1, E2.
  transitivity false; [apply Z.eqb_neq|symmetry; apply Z.eqb_neq]; lia.
Qed.

Lemma c_string_cons c s :
  c_string (c :: s) = if c =? 0 then [] else c :: c_string s.
Proof. unfold c_string. cbn. destruct (c =? 0); reflexivity. Qed.

Lemma c_string_hd_0 s : hd 0 s = 0 -> c_string s = [].
Proof.
  destruct s as [|c s]; [reflexivity|]. cbn [hd]. intros ->. reflexivity.
Qed.

Lemma c_string_hd s :
  hd 0 s <> 0 -> c_string s = hd 0 s :: c_string (tl s).
Proof.
  destruct s as [|c s]; cbn [hd tl]; [congruence|]. intros Hc.
  rewrite c_string_cons. apply Z.eqb_neq in Hc. rewrite Hc. reflexivity.
Qed.

Lemma wcsicmp_eq s t :
  _wcsicmp s t
  = if towlower (hd 0 s) =? towlower (hd 0 t)
    then if towlower (hd 0 s) =? 0 then 0 else _wcsicmp (tl s) (tl t)
    else if towlower (hd 0 s) <? towlower (hd 0 t) then -1 else 1.
Proof.
  destruct s as [|c s]; [|reflexivity].
  cbn [_wcsicmp hd tl]. rewrite (towlower_0 0).
  destruct (towlower 0 =? towlower (hd 0 t)); reflexivity.
Qed.

Lemma towlower_eqb_0_l y : (towlower 0 =? towlower y) = (y =? 0).
Proof. change (towlower 0) with 0. rewrite Z.eqb_sym. apply towlower_0. Qed.

Lemma towlower_eqb_0_r x : (towlower x =? towlower 0) = (x =? 0).
Proof. change (towlower 0) with 0. apply towlower_0. Qed.

(** _wcsicmp returns 0 exactly on names that are equal up to case. *)
Lemma wcsicmp_0 s t : (_wcsicmp s t =? 0) = same_name_nocase s t.
Proof.
  unfold same_name_nocase.
  assert (Hsign : forall c d, ((if c <? d then -1 else 1) =? 0) = false)
    by (intros c d; destruct (c <? d); reflexivity).
  assert (Hnil : forall s t, hd 0 s = 0 ->
    (_wcsicmp s t =? 0)
    = wstring_eqb (map towlower (c_string s)) (map towlower (c_string t))).
  { intros s' t' H0. rewrite wcsicmp_eq, H0, (c_string_hd_0 _ H0).
    rewrite towlower_eqb_0_l, (towlower_0 0).
    destruct (Z.eq_dec (hd 0 t') 0) as [Ht|Ht].
    - rewrite Ht, (c_string_hd_0 _ Ht). reflexivity.
    - rewrite (proj2 (Z.eqb_neq _ _) Ht), (c_string_hd _ Ht), Hsign.
      reflexivity. }
  revert t. induction s as [|c s IH]; intros t; [apply Hnil; reflexivity|].
  destruct (Z.eq_dec c 0) as [Hc|Hc]; [apply Hnil; exact Hc|].
  rewrite wcsicmp_eq. cbn [hd tl]. rewrite c_string_cons, towlower_0.
  rewrite (proj2 (Z.eqb_neq _ _) Hc).
  destruct (Z.eq_dec (hd 0 t) 0) as [Ht|Ht].
  - rewrite Ht, (c_string_hd_0 _ Ht), towlower_eqb_0_r.
    rewrite (proj2 (Z.eqb_neq _ _) Hc), Hsign. reflexivity.
  - rewrite (c_string_hd _ Ht). cbn [map wstring_eqb].
    destruct (towlower c =? towlower (hd 0 t)); [apply IH|apply Hsign].
Qed.

Lemma match_gui_process_pid_ret g p :
  p <> 0 ->
  match_gui_process_pid g p = return_ (context_matches (pid_entry p) (Some g)).
Proof.
  intros Hp. unfold match_gui_process_pid, FAIL_IF.
  apply Z.eqb_neq in Hp. rewrite Hp, seq_return_l.
  cbn. destruct (spi g); reflexivity.
Qed.

Lemma context_matches_pid i g :
  name i = None -> context_matches i g = context_matches (pid_entry (id i)) g.
Proof.
  intros Hi. destruct g as [g|]; [|reflexivity]. cbn.
  destruct (spi g); [|reflexivity]. rewrite Hi. reflexivity.
Qed.

Lemma existsb_context_matches_pid i l :
  name i = None ->
  existsb (context_matches (pid_entry (id i))) l
  = existsb (context_matches i) l.
Proof.
  intros Hn. induction l as [|g l IHl]; cbn [existsb]; [reflexivity|].
  rewrite IHl, (context_matches_pid _ g Hn). reflexivity.
Qed.

Lemma match_hook_process_pid_ret hook p :
  p <> 0 ->
  match_hook_process_pid hook p
  = return_ (existsb (context_matches (pid_entry p)) (contexts hook)).
Proof.
  intros Hp. unfold match_hook_process_pid, FAIL_IF, contexts, orelse.
  rewrite (proj2 (Z.eqb_neq _ _) Hp), seq_return_l.
  destruct (owner hook) as [g1|], (origin hook) as [g2|],
    (target hook) as [g3|];
    rewrite ?match_gui_process_pid_ret by trivial; rewrite ?bind_return_l;
    cbn [existsb];
    repeat match goal with
    | |- context [if ?c then _ else _] =>
        destruct c; rewrite ?bind_return_l; cbn [orb]
    end;
    change (context_matches (pid_entry p) None) with false; cbn [orb];
    rewrite ?orb_false_r; reflexivity.
Qed.

Lemma match_hook_process_name_ret hook i n :
  name i = Some n ->
  match_hook_process_name hook n = existsb (context_matches i) (contexts hook).
Proof.
  intros Hi. unfold match_hook_process_name, contexts. cbn [existsb].
  rewrite orb_false_r, orb_assoc.
  assert (H : forall g, match g with
                        | Some g => match_gui_process_name g n
                        | None => false
                        end = context_matches i g).
  { intros [g|]; [|reflexivity]. unfold match_gui_process_name. cbn.
    destruct (spi g) as [p|]; [|reflexivity]. rewrite Hi.
    destruct (Buffer (ImageName p)); [apply wcsicmp_0|reflexivity]. }
  rewrite !H. reflexivity.
Qed.

Lemma proglist_loop_ret hook items : forall yes,
  Forall (fun i => name i = None -> id i <> 0) items ->
  proglist_loop hook items yes
  = return_
      (yes
       || existsb (fun i => existsb (context_matches i) (contexts hook)) items).
Proof.
  induction items as [|i items IH]; intros yes Hnz; cbn [proglist_loop existsb].
  - rewrite orb_false_r. reflexivity.
  - destruct yes; [reflexivity|].
    apply Forall_cons_iff in Hnz. destruct Hnz as [Hi Hnz].
    destruct (name i) as [n|] eqn:Hn.
    + rewrite bind_return_l, IH by trivial.
      rewrite (match_hook_process_name_ret _ _ Hn). reflexivity.
    + rewrite match_hook_process_pid_ret by auto.
      rewrite bind_return_l, IH by trivial.
      rewrite (existsb_context_matches_pid _ _ Hn). reflexivity.
Qed.

Lemma hooklist_loop_existsb hook items : forall yes,
  hooklist_loop hook items yes
  = yes || existsb (fun i => id i =? iHook (object hook)) items.
Proof.
  induction items as [|i items IH]; intros yes; cbn [hooklist_loop existsb].
  - rewrite orb_false_r. reflexivity.
  - destruct yes; [reflexivity|]. rewrite IH. reflexivity.
Qed.

(** With pid entries that are pids, the filter returns, and its answer is
    the conjunction of the two rules. *)
Lemma is_hook_wanted_ret cfg hook :
  pids_nonzero cfg -> is_hook_wanted cfg hook = return_ (wanted cfg hook).
Proof.
  intros Hnz. unfold is_hook_wanted, wanted, program_rule, hook_type_rule,
    matches_program_rule, matches_hook_type_rule.
  rewrite hooklist_loop_existsb. cbn [orb].
  destruct (init_time (proglist cfg) =? 0); cbn [negb andb].
  - rewrite bind_return_l. cbn [passes andb].
    destruct (init_time (hooklist cfg) =? 0); cbn [negb andb passes];
      [reflexivity|].
    destruct (type (hooklist cfg)); cbn;
      try reflexivity;
      destruct (existsb _ (list_head (hooklist cfg))); reflexivity.
  - destruct (type (proglist cfg)) eqn:Ht; cbn [list_type_eqb orb passes];
      rewrite ?proglist_loop_ret by exact Hnz; rewrite !bind_return_l;
      cbn [orb andb negb];
      rewrite ?andb_false_r, ?andb_true_r, ?orb_false_r; cbn [orb];
      try destruct (existsb _ (list_head (proglist cfg)));
      cbn [negb andb];
      try reflexivity;
      destruct (init_time (hooklist cfg) =? 0); cbn [negb andb passes];
      try reflexivity;
      destruct (type (hooklist cfg)); cbn;
      try reflexivity;
      destruct (existsb _ (list_head (hooklist cfg))); reflexivity.
Qed.

(** The filter prints nothing. *)
Lemma bind_silent {A B} (m : io A) (f : A -> io B) :
  printed m = [] -> (forall x, printed (f x) = []) ->
  printed (x <- m ;; f x) = [].
Proof.
  destruct m as [o [x|s]]; cbn; intros -> Hf; [|reflexivity].
  specialize (Hf x). destruct (f x). exact Hf.
Qed.

Lemma seq_silent {A B} (m : io A) (k : io B) :
  printed m = [] -> printed k = [] -> printed (m ;; k) = [].
Proof.
  destruct m as [o [x|s]]; cbn; intros -> Hk; [exact Hk|reflexivity].
Qed.

Lemma match_gui_process_pid_silent g p :
  printed (match_gui_process_pid g p) = [].
Proof.
  unfold match_gui_process_pid, FAIL_IF.
  destruct (p =? 0); [reflexivity|]. destruct (spi g); reflexivity.
Qed.

Lemma match_hook_process_pid_silent hook p :
  printed (match_hook_process_pid hook p) = [].
Proof.
  assert (H : forall g : option gui,
            printed match g with
                    | Some g => match_gui_process_pid g p
                    | None => return_ false
                    end = []).
  { intros [g|]; [apply match_gui_process_pid_silent|reflexivity]. }
  unfold match_hook_process_pid, orelse.
  apply seq_silent; [unfold FAIL_IF; destruct (p =? 0); reflexivity|].
  apply bind_silent; [apply H|]. intros [|]; [reflexivity|].
  apply bind_silent; [apply H|]. intros [|]; [reflexivity|apply H].
Qed.

Lemma proglist_loop_silent hook items : forall yes,
  printed (proglist_loop hook items yes) = [].
Proof.
  induction items as [|i items IH]; intros yes; cbn [proglist_loop];
    [reflexivity|].
  destruct yes; [reflexivity|].
  apply bind_silent; [|intros x; apply IH].
  destruct (name i); [reflexivity|apply match_hook_process_pid_silent].
Qed.

Lemma is_hook_wanted_silent cfg hook : printed (is_hook_wanted cfg hook) = [].
Proof.
  unfold is_hook_wanted. cbv zeta.
  apply bind_silent.
  - destruct (negb (init_time (proglist cfg) =? 0) && _); [|reflexivity].
    apply bind_silent; [apply proglist_loop_silent|reflexivity].
  - intros [|]; [reflexivity|].
    match goal with |- context [if ?c then return_ false else return_ true] =>
      destruct c end; reflexivity.
Qed.

(** The policy of the spec's example. *)
Lemma record_pids_matches hook p :
  existsb (context_matches (pid_entry p)) (contexts hook)
  = existsb (fun q => p =? to_int (to_DWORD q)) (record_pids hook).
Proof.
  unfold record_pids.
  induction (contexts hook) as [|g l IH]; cbn [existsb flat_map];
    [reflexivity|].
  rewrite existsb_app, IH. f_equal.
  destruct g as [g|]; [|reflexivity]. cbn.
  destruct (spi g); cbn; rewrite ?orb_false_r; reflexivity.
Qed.

Lemma wanted_exclude_100_include_2 hook :
  wanted exclude_100_include_2 hook
  = negb (existsb (fun q => 100 =? to_int (to_DWORD q)) (record_pids hook))
    && (2 =? iHook (object hook)).
Proof.
  unfold wanted, matches_program_rule, matches_hook_type_rule.
  change (program_rule exclude_100_include_2) with rule_exclude.
  change (hook_type_rule exclude_100_include_2) with rule_include.
  change (list_head (proglist exclude_100_include_2)) with [pid_entry 100].
  change (list_head (hooklist exclude_100_include_2)) with [type_entry 2].
  cbn [existsb passes]. change (id (type_entry 2)) with 2.
  rewrite !orb_false_r, record_pids_matches. reflexivity.
Qed.

Lemma pids_nonzero_exclude_100_include_2 : pids_nonzero exclude_100_include_2.
Proof. repeat constructor. cbn. lia. Qed.

(** ** Comparing two gui structs *)

Lemma wcslen_le s : (wcslen s <= List.length s)%nat.
Proof.
  induction s as [|c s IH]; cbn; [lia|]. destruct (c =? 0); lia.
Qed.

Lemma length_c_string s : List.length (c_string s) = wcslen s.
Proof. unfold c_string. apply firstn_length_le, wcslen_le. Qed.

(** wcsncmp returns 0 exactly when the two strings, cut at [n] WCHARs,
    have the same characters. *)
Lemma wcsncmp_0 n : forall s t,
  wcsncmp s t n = 0 <-> firstn n (c_string s) = firstn n (c_string t).
Proof.
  induction n as [|n IH]; intros s t; [cbn; tauto|].
  cbn [wcsncmp].
  destruct (Z.eq_dec (hd 0 s) 0) as [Hs|Hs], (Z.eq_dec (hd 0 t) 0) as [Ht|Ht].
  - rewrite Hs, Ht, (c_string_hd_0 _ Hs), (c_string_hd_0 _ Ht). cbn. tauto.
  - rewrite Hs, (c_string_hd_0 _ Hs), (c_string_hd _ Ht).
    rewrite (proj2 (Z.eqb_neq 0 (hd 0 t))) by congruence.
    cbn [firstn]. destruct (0 <? hd 0 t); split; intros; discriminate.
  - rewrite Ht, (c_string_hd_0 _ Ht), (c_string_hd _ Hs).
    rewrite (proj2 (Z.eqb_neq (hd 0 s) 0)) by congruence.
    cbn [firstn]. destruct (hd 0 s <? 0); split; intros; discriminate.
  - rewrite (c_string_hd _ Hs), (c_string_hd _ Ht). cbn [firstn].
    destruct (hd 0 s =? hd 0 t) eqn:E.
    + apply Z.eqb_eq in E. rewrite (proj2 (Z.eqb_neq (hd 0 s) 0)) by trivial.
      rewrite E. split; intros H.
      * apply IH in H. f_equal. exact H.
      * apply IH. injection H. trivial.
    + apply Z.eqb_neq in E.
      destruct (hd 0 s <? hd 0 t); split; intros H; try discriminate;
        injection H; intros; contradiction.
Qed.

Lemma wcsncmp_refl s n : wcsncmp s s n = 0.
Proof. apply wcsncmp_0. reflexivity. Qed.

Lemma same_stuff_refl x : same_stuff x x = true.
Proof.
  unfold same_stuff. rewrite !Z.eqb_refl, wcsncmp_refl. reflexivity.
Qed.

(** What the condition of print_diff_gui compares. *)
Lemma same_stuff_true x y :
  same_stuff x y = true
  <-> stuff_pvTeb x = stuff_pvTeb y
      /\ stuff_pvWin32ThreadInfo x = stuff_pvWin32ThreadInfo y
      /\ tid x = tid y
      /\ pid x = pid y
      /\ Length (stuff_ImageName x) = Length (stuff_ImageName y)
      /\ names_agree x y.
Proof.
  unfold same_stuff, names_agree.
  rewrite !andb_true_iff, !Z.eqb_eq, wcsncmp_0. tauto.
Qed.

Lemma print_diff_gui_cases a b threadname :
  print_diff_gui a b threadname
  = if same_stuff (fill_stuff a) (fill_stuff b) then return_ false
    else ([gui_changed threadname a b], Return true).
Proof.
  unfold print_diff_gui. destruct (same_stuff _ _); reflexivity.
Qed.

Lemma print_diff_gui_false a b threadname :
  print_diff_gui a b threadname = return_ false
  <-> same_stuff (fill_stuff a) (fill_stuff b) = true.
Proof.
  rewrite print_diff_gui_cases.
  destruct (same_stuff _ _); split; trivial; discriminate.
Qed.

Lemma print_diff_gui_same a threadname :
  print_diff_gui a a threadname = return_ false.
Proof. apply print_diff_gui_false, same_stuff_refl. Qed.

Lemma byte_at_even s i : byte_at s (2 * i) = wchar_at s i mod 256.
Proof.
  unfold byte_at. rewrite Nat.div2_double.
  replace (Nat.even (2 * i)) with true; [reflexivity|].
  symmetry. apply Nat.even_spec. exists i. reflexivity.
Qed.

Lemma byte_at_odd s i : byte_at s (S (2 * i)) = wchar_at s i / 256.
Proof.
  unfold byte_at. rewrite Nat.div2_succ_double.
  replace (Nat.even (S (2 * i))) with false; [reflexivity|].
  symmetry. rewrite Nat.even_succ, <- Nat.negb_even.
  replace (Nat.even (2 * i)) with true; [reflexivity|].
  symmetry. apply Nat.even_spec. exists i. reflexivity.
Qed.

Lemma byte_at_div2 s j :
  byte_at s j
  = if Nat.even j then wchar_at s (Nat.div2 j) mod 256
    else wchar_at s (Nat.div2 j) / 256.
Proof. reflexivity. Qed.

(** The first 2m bytes agree exactly when the first m WCHARs do. *)
Lemma bytes_eq_wchars s t m :
  map (byte_at s) (List.seq 0 (2 * m)) = map (byte_at t) (List.seq 0 (2 * m))
  <-> (forall i, (i < m)%nat -> wchar_at s i = wchar_at t i).
Proof.
  rewrite map_ext_in_iff. split.
  - intros H i Hi.
    pose proof (H (2 * i)%nat) as He. pose proof (H (S (2 * i))) as Ho.
    rewrite !byte_at_even in He. rewrite !byte_at_odd in Ho.
    rewrite (Z.div_mod (wchar_at s i) 256), (Z.div_mod (wchar_at t i) 256)
      by lia.
    rewrite He, Ho; trivial; apply in_seq; lia.
  - intros H j Hj. apply in_seq in Hj. rewrite !byte_at_div2.
    rewrite H; [reflexivity|].
    destruct Hj as [_ Hj]. cbn in Hj.
    pose proof (Nat.div2_odd j) as Hd.
    destruct (Nat.odd j); cbn in Hd; lia.
Qed.

Lemma wchar_at_c_string s i :
  (i < wcslen s)%nat -> wchar_at (c_string s) i = wchar_at s i.
Proof.
  intros Hi. unfold wchar_at, c_string. revert i Hi.
  induction s as [|c s IH]; intros i Hi; cbn in *; [lia|].
  destruct (c =? 0); [lia|]. destruct i as [|i]; [reflexivity|].
  cbn. apply IH. lia.
Qed.

Lemma c_string_eq_wchars s t :
  wcslen s = wcslen t ->
  c_string s = c_string t
  <-> (forall i, (i < wcslen s)%nat -> wchar_at s i = wchar_at t i).
Proof.
  intros Hlen. split.
  - intros H i Hi.
    rewrite <- (wchar_at_c_string s), <- (wchar_at_c_string t), H by lia.
    reflexivity.
  - intros H. apply (nth_ext _ _ 0 0).
    + rewrite !length_c_string. exact Hlen.
    + intros i Hi. rewrite length_c_string in Hi.
      change (wchar_at (c_string s) i = wchar_at (c_string t) i).
      rewrite !wchar_at_c_string by lia. auto.
Qed.

(** For counted strings of one Length, agreement as wide strings is
    identity of the Length bytes. *)
Lemma counted_names_agree x y :
  counted_string (stuff_ImageName x) -> counted_string (stuff_ImageName y) ->
  Length (stuff_ImageName x) = Length (stuff_ImageName y) ->
  names_agree x y
  <-> name_bytes (stuff_ImageName x) = name_bytes (stuff_ImageName y).
Proof.
  unfold counted_string, names_agree, name_bytes. intros Hx Hy Hl.
  set (s := deref (Buffer (stuff_ImageName x))) in *.
  set (t := deref (Buffer (stuff_ImageName y))) in *.
  assert (Hlen : wcslen s = wcslen t) by lia.
  rewrite <- Hl, Hx.
  replace (Z.to_nat (Z.of_nat (wcslen s) * 2)) with (2 * wcslen s)%nat by lia.
  rewrite bytes_eq_wchars, <- (c_string_eq_wchars _ _ Hlen).
  rewrite !firstn_all2 by (rewrite length_c_string; lia).
  tauto.
Qed.

Lemma firstn_18_unknown l : firstn 18 l = unknown <-> l = unknown.
Proof.
  split; [|intros ->; reflexivity].
  intros H.
  assert (Hl : List.length (firstn 18 l) = 9%nat) by (rewrite H; reflexivity).
  rewrite length_firstn in Hl.
  rewrite <- H. symmetry. apply firstn_all2. lia.
Qed.

(** Against an absent context, no change is reported exactly for a
    context that shows as the sentinel. *)
Lemma print_diff_gui_none g threadname :
  print_diff_gui None (Some g) threadname = return_ false <-> shows_unknown g.
Proof.
  rewrite print_diff_gui_false, same_stuff_true.
  unfold names_agree, shows_unknown.
  change (fill_stuff None) with empty_stuff.
  change (Z.to_nat (Length (stuff_ImageName empty_stuff))) with 18%nat.
  change (firstn 18 (c_string (deref (Buffer (stuff_ImageName empty_stuff)))))
    with unknown.
  change (Length (stuff_ImageName empty_stuff)) with 18.
  change (stuff_pvTeb empty_stuff) with 0.
  change (stuff_pvWin32ThreadInfo empty_stuff) with 0.
  change (tid empty_stuff) with 0. change (pid empty_stuff) with 0.
  change (stuff_pvTeb (fill_stuff (Some g))) with (pvTeb g).
  change (stuff_pvWin32ThreadInfo (fill_stuff (Some g)))
    with (pvWin32ThreadInfo g).
  split.
  - intros (H1 & H2 & H3 & H4 & H5 & H6). symmetry in H6.
    apply (proj1 (firstn_18_unknown _)) in H6.
    repeat split; congruence.
  - intros (H1 & H2 & H3 & H4 & H5 & H6). rewrite H6.
    repeat split; congruence.
Qed.

Lemma print_diff_gui_resolved g threadname :
  resolved g ->
  print_diff_gui None (Some g) threadname
  = ([gui_changed threadname None (Some g)], Return true).
Proof.
  intros [p [Hp Hnz]]. rewrite print_diff_gui_cases.
  destruct (same_stuff _ _) eqn:E; [|reflexivity].
  apply same_stuff_true in E. destruct E as (_ & _ & _ & E & _).
  cbn in E. rewrite Hp in E. congruence.
Qed.

(** ** Comparing two hook structs *)

Lemma notices_app o o' : notices (o ++ o') = (notices o + notices o')%nat.
Proof. unfold notices. rewrite filter_app, length_app. reflexivity. Qed.

Lemma notices_seq_le {A B} (m : io A) (k : io B) :
  (notices (printed (m ;; k)) <= notices (printed m) + notices (printed k))%nat.
Proof.
  rewrite printed_seq, notices_app.
  destruct (outcome m); [lia|]. change (notices []) with O. lia.
Qed.

Lemma notices_bind_le {A B} (m : io A) (f : A -> io B) n :
  (forall x, notices (printed (f x)) <= n)%nat ->
  (notices (printed (x <- m ;; f x)) <= notices (printed m) + n)%nat.
Proof.
  intros Hf. destruct m as [o [x|s]]; unfold bind, printed in *;
    cbn [fst] in *; [|lia].
  specialize (Hf x). destruct (f x). cbn [fst] in *. rewrite notices_app. lia.
Qed.

Lemma headerless_seq {A B} (m : io A) (k : io B) :
  notices (printed m) = O -> notices (printed k) = O ->
  notices (printed (m ;; k)) = O.
Proof. intros Hm Hk. pose proof (notices_seq_le m k). lia. Qed.

Lemma headerless_when c o :
  is_notice o = false -> notices (printed (when c (print o))) = O.
Proof. intros Ho. destruct c; cbn; [rewrite Ho|]; reflexivity. Qed.

Lemma headerless_print_diff_gui a b threadname :
  notices (printed (print_diff_gui a b threadname)) = O.
Proof.
  rewrite print_diff_gui_cases. destruct (same_stuff _ _); reflexivity.
Qed.

Lemma print_diff_gui_call_cases literal x y :
  print_diff_gui_call literal x y
  = match y with
    | Some g =>
        print_diff_gui (Some (literal_as_gui mem literal)) x
          (gui_as_text mem g)
    | None => ([], Stop failed) (* FAIL_IF( !threadname ) *)
    end.
Proof.
  unfold print_diff_gui_call. destruct y; cbn [is_NULL FAIL_IF];
    [apply seq_return_l|reflexivity].
Qed.

Lemma headerless_print_diff_gui_call literal x y :
  notices (printed (print_diff_gui_call literal x y)) = O.
Proof.
  rewrite print_diff_gui_call_cases.
  destruct y; [apply headerless_print_diff_gui|reflexivity].
Qed.

Lemma headerless_print_flags_parts o x y :
  notices (printed (print_flags_parts o x y)) = O.
Proof.
  unfold print_flags_parts.
  repeat apply headerless_seq; apply headerless_when; reflexivity.
Qed.

Lemma headerless_when_seq c (m k : io unit) :
  notices (printed m) = O -> notices (printed k) = O ->
  notices (printed (when c (m ;; k))) = O.
Proof.
  intros Hm Hk. destruct c; [apply headerless_seq; trivial|reflexivity].
Qed.

(** A comparison prints one Modified header at most. *)
Lemma print_diff_hook_notices a b deskname :
  (notices (printed (print_diff_hook a b deskname)) <= 1)%nat.
Proof.
  unfold print_diff_hook. cbv zeta.
  etransitivity; [apply notices_seq_le|].
  match goal with |- (?x + ?y <= 1)%nat =>
    assert (Hx : (x <= 1)%nat); [|assert (Hy : y = O); [|lia]] end.
  - destruct (negb (bFlags (entry a) =? bFlags (entry b))); cbn [when];
      [|cbn; lia].
    etransitivity; [apply notices_seq_le|].
    rewrite (headerless_seq (print handleentry_flags_changed)
               (print_flags_parts of_HANDLEENTRY (bFlags (entry a))
                  (bFlags (entry b))));
      [cbn; lia|reflexivity|apply headerless_print_flags_parts].
  - repeat first
      [ apply headerless_print_diff_gui_call
      | apply headerless_when; reflexivity
      | apply headerless_when_seq;
          [reflexivity|apply headerless_print_flags_parts]
      | apply headerless_seq ].
Qed.

Lemma perform_notices cfg deskname v :
  (notices (printed (perform cfg deskname v)) <= 1)%nat.
Proof.
  assert (Hg : forall x d,
    (notices (printed (wanted <- is_hook_wanted cfg x ;;
                       when wanted (print_hook_notice x deskname d))) <= 1)%nat).
  { intros x d.
    etransitivity;
      [apply (notices_bind_le _ _ (n := 1)); intros [|]; cbn; lia|].
    rewrite is_hook_wanted_silent. cbn. lia. }
  destruct v as [[|] x|[|] x|x y]; cbn [perform];
    auto using print_diff_hook_notices.
Qed.

Lemma for_each_notices cfg deskname l :
  (notices (printed (for_each (perform cfg deskname) l)) <= List.length l)%nat.
Proof.
  induction l as [|v l IH]; cbn [for_each List.length]; [cbn; lia|].
  etransitivity; [apply notices_seq_le|].
  pose proof (perform_notices cfg deskname v). lia.
Qed.

(** ** Flags *)

Lemma to_BYTE_bits x n :
  0 <= n -> Z.testbit (to_BYTE x) n = (n <? 8) && Z.testbit x n.
Proof.
  intros Hn. unfold to_BYTE. change 256 with (2 ^ 8).
  apply Z.testbit_mod_pow2. lia.
Qed.

Lemma to_BYTE_small x : 0 <= x < 256 -> to_BYTE x = x.
Proof. apply Z.mod_small. Qed.

(** The three parts, as bytes, make up the byte of the union and the
    removed and added parts share no bit. *)
Lemma flags_parts_partition x y :
  Z.lor (Z.lor (to_BYTE (Z.land x y)) (to_BYTE (Z.land x (Z.lnot y))))
        (to_BYTE (Z.land y (Z.lnot x)))
  = to_BYTE (Z.lor x y)
  /\ Z.land (to_BYTE (Z.land x (Z.lnot y))) (to_BYTE (Z.land y (Z.lnot x))) = 0.
Proof.
  split; apply Z.bits_inj'; intros n Hn;
    rewrite ?Z.lor_spec, ?Z.land_spec, ?to_BYTE_bits, ?Z.lor_spec,
      ?Z.land_spec, ?Z.lnot_spec, ?Z.bits_0 by trivial;
    destruct (n <? 8), (Z.testbit x n), (Z.testbit y n); reflexivity.
Qed.

(** The three parts partition the union. *)
Lemma parts_partition x y :
  Z.lor (Z.lor (Z.land x y) (Z.land x (Z.lnot y))) (Z.land y (Z.lnot x))
  = Z.lor x y
  /\ Z.land (Z.land x (Z.lnot y)) (Z.land y (Z.lnot x)) = 0.
Proof.
  split; apply Z.bits_inj'; intros n Hn;
    rewrite ?Z.lor_spec, ?Z.land_spec, ?Z.lnot_spec, ?Z.bits_0 by trivial;
    destruct (Z.testbit x n), (Z.testbit y n); reflexivity.
Qed.

Lemma lor_BYTE x y :
  0 <= x < 256 -> 0 <= y < 256 -> to_BYTE (Z.lor x y) = Z.lor x y.
Proof.
  intros Hx Hy.
  rewrite <- (to_BYTE_small Hx), <- (to_BYTE_small Hy) at 2.
  apply Z.bits_inj'; intros n Hn.
  rewrite ?Z.lor_spec, ?to_BYTE_bits, ?Z.lor_spec by trivial.
  destruct (n <? 8); reflexivity.
Qed.

Lemma land_BYTE x y : 0 <= x < 256 -> to_BYTE (Z.land x y) = Z.land x y.
Proof.
  intros Hx.
  rewrite <- (to_BYTE_small Hx) at 2.
  apply Z.bits_inj'; intros n Hn.
  rewrite ?Z.land_spec, ?to_BYTE_bits, ?Z.land_spec by trivial.
  destruct (n <? 8), (Z.testbit x n); reflexivity.
Qed.

Lemma printed_print_flags_parts o x y :
  printed (print_flags_parts o x y)
  = (if to_BYTE (Z.land x y) =? 0 then []
     else [flags_same o (to_BYTE (Z.land x y))])
    ++ (if to_BYTE (Z.land x (Z.lnot y)) =? 0 then []
        else [flags_removed o (to_BYTE (Z.land x (Z.lnot y)))])
    ++ (if to_BYTE (Z.land y (Z.lnot x)) =? 0 then []
        else [flags_added o (to_BYTE (Z.land y (Z.lnot x)))]).
Proof.
  unfold print_flags_parts. cbv zeta.
  destruct (to_BYTE (Z.land x y) =? 0),
    (to_BYTE (Z.land x (Z.lnot y)) =? 0),
    (to_BYTE (Z.land y (Z.lnot x)) =? 0); reflexivity.
Qed.

(** ** print_diff_desktop_hook_items and print_diff_desktop_hook_lists *)

Lemma print_diff_desktop_hook_items_guards cfg a b da db :
  desktop a = Some da -> desktop b = Some db ->
  desktop_ptr da = desktop_ptr db -> hook_max a = hook_max b ->
  print_diff_desktop_hook_items cfg a b
  = diff_loops cfg (pwszDesktopName db) a b.
Proof.
  intros Ha Hb Hp Hm. unfold print_diff_desktop_hook_items.
  rewrite Ha, Hb. cbn [is_NULL same_desktop desktop_name FAIL_IF].
  rewrite Hp, Hm, !Z.eqb_refl. cbn [negb FAIL_IF].
  rewrite !seq_return_l. reflexivity.
Qed.

Lemma hook_lists_for_combine cfg : forall list1 list2,
  hook_lists_for cfg list1 list2
  = for_each (diff_pair cfg) (combine list1 list2) ;;
    return_ (skipn (List.length list2) list1, skipn (List.length list1) list2).
Proof.
  induction list1 as [|x a IH]; intros [|y b]; cbn [hook_lists_for combine
    for_each List.length skipn]; rewrite ?seq_return_l; try reflexivity.
  rewrite IH, seq_assoc. reflexivity.
Qed.

Lemma skipn_is_NULL {X} (l : list X) n :
  is_NULL (hd_error (skipn n l)) = (List.length l <=? n)%nat.
Proof.
  revert l. induction n as [|n IH]; intros [|x l]; cbn; trivial.
Qed.

Lemma print_diff_desktop_hook_lists_combine cfg list1 list2 :
  print_diff_desktop_hook_lists cfg list1 list2
  = for_each (diff_pair cfg) (combine list1 list2) ;;
    when (negb (List.length list1 =? List.length list2)%nat)
      (MSG_FATAL "The desktop hook stores could not be fully compared." ;;
       exit 1).
Proof.
  unfold print_diff_desktop_hook_lists.
  rewrite hook_lists_for_combine, seq_bind, bind_return_l. cbn [fst snd].
  rewrite !skipn_is_NULL. f_equal. f_equal.
  destruct (Nat.eqb_spec (List.length list1) (List.length list2)) as [E|E].
  - rewrite E, Nat.leb_refl. reflexivity.
  - destruct (Nat.leb_spec (List.length list1) (List.length list2)),
      (Nat.leb_spec (List.length list2) (List.length list1));
      cbn; trivial; lia.
Qed.

(** ** The output of print_diff_hook, block by block *)

Lemma outcome_seq {A B} (m : io A) (k : io B) x :
  outcome m = Return x -> outcome (m ;; k) = outcome k.
Proof. destruct m as [o r]. cbn. intros ->. reflexivity. Qed.

Lemma when_negb_print x y o :
  when (negb (x =? y)) (print o) = ((if x =? y then [] else [o]), Return tt).
Proof. destruct (x =? y); reflexivity. Qed.

Lemma print_flags_parts_pair o x y :
  print_flags_parts o x y = (printed (print_flags_parts o x y), Return tt).
Proof.
  unfold print_flags_parts. cbv zeta.
  destruct (to_BYTE (Z.land x y) =? 0),
    (to_BYTE (Z.land x (Z.lnot y)) =? 0),
    (to_BYTE (Z.land y (Z.lnot x)) =? 0); reflexivity.
Qed.

Lemma when_negb_block x y (m : io unit) out :
  m = (out, Return tt) ->
  when (negb (x =? y)) m = ((if x =? y then [] else out), Return tt).
Proof. intros ->. destruct (x =? y); reflexivity. Qed.

(** A call with the context of the new record: it returns. *)
Lemma print_diff_gui_call_Some literal x g :
  exists r,
    print_diff_gui_call literal x (Some g)
    = (printed (print_diff_gui_call literal x (Some g)), Return r).
Proof.
  rewrite print_diff_gui_call_cases, print_diff_gui_cases.
  destruct (same_stuff _ _); eexists; reflexivity.
Qed.

(** A call without it: FAIL_IF( !threadname ). *)
Lemma print_diff_gui_call_None literal x :
  print_diff_gui_call literal x None = ([], Stop failed).
Proof. reflexivity. Qed.

(** print_diff_hook by its blocks, in the order of the source: the blocks
    after a call of print_diff_gui are run when the context of the new
    record given to it is not NULL. *)
Lemma print_diff_hook_blocks a b deskname :
  print_diff_hook a b deskname
  = ((if bFlags (entry a) =? bFlags (entry b) then []
      else hook_notice_begin b deskname HOOK_MODIFIED
           :: handleentry_flags_changed
           :: printed (print_flags_parts of_HANDLEENTRY
                         (bFlags (entry a)) (bFlags (entry b))))
     ++ printed (print_diff_gui_call "owner" (owner a) (owner b))
     ++ (if is_NULL (owner b) then []
         else
           (if h (head (object a)) =? h (head (object b)) then []
            else [handle_changed (h (head (object a)))
                                 (h (head (object b)))])
           ++ (if cLockObj (head (object a)) =? cLockObj (head (object b))
               then []
               else [lock_count_changed (cLockObj (head (object a)))
                                        (cLockObj (head (object b)))])
           ++ printed (print_diff_gui_call "origin" (origin a) (origin b))
           ++ (if is_NULL (origin b) then []
               else
                 (if rpdesk1 (object a) =? rpdesk1 (object b) then []
                  else [rpdesk1_changed (rpdesk1 (object a))
                                        (rpdesk1 (object b))])
                 ++ (if pSelf (object a) =? pSelf (object b) then []
                     else [kernel_address_changed (pSelf (object a))
                                                  (pSelf (object b))])
                 ++ (if phkNext (object a) =? phkNext (object b) then []
                     else [chain_modified (phkNext (object a))
                                          (phkNext (object b))])
                 ++ (if iHook (object a) =? iHook (object b) then []
                     else [hook_id_changed (iHook (object a))
                                           (iHook (object b))])
                 ++ (if offPfn (object a) =? offPfn (object b) then []
                     else [function_offset_changed (offPfn (object a))
                                                   (offPfn (object b))])
                 ++ (if flags (object a) =? flags (object b) then []
                     else hook_flags_changed
                          :: printed (print_flags_parts of_HOOK
                                        (flags (object a)) (flags (object b))))
                 ++ (if ihmod (object a) =? ihmod (object b) then []
                     else [module_index_changed (ihmod (object a))
                                                (ihmod (object b))])
                 ++ printed (print_diff_gui_call "target"
                               (target a) (target b))
                 ++ (if is_NULL (target b) then []
                     else
                       if rpdesk2 (object a) =? rpdesk2 (object b) then []
                       else [rpdesk2_changed (rpdesk2 (object a))
                                             (rpdesk2 (object b))]))),
     if contexts_present b then Return tt else Stop failed).
Proof.
  unfold print_diff_hook, contexts_present. cbv zeta.
  rewrite !when_negb_print.
  rewrite (when_negb_block (bFlags (entry a)) (bFlags (entry b))
             (out := hook_notice_begin b deskname HOOK_MODIFIED
                     :: handleentry_flags_changed
                     :: printed (print_flags_parts of_HANDLEENTRY
                                   (bFlags (entry a)) (bFlags (entry b)))))
    by (rewrite print_flags_parts_pair; reflexivity).
  rewrite (when_negb_block (flags (object a)) (flags (object b))
             (out := hook_flags_changed
                     :: printed (print_flags_parts of_HOOK
                                   (flags (object a)) (flags (object b)))))
    by (rewrite print_flags_parts_pair; reflexivity).
  destruct (owner b) as [g1|].
  2:{ rewrite print_diff_gui_call_None. cbn [seq fst snd is_NULL printed].
      rewrite !app_nil_r. reflexivity. }
  destruct (print_diff_gui_call_Some "owner" (owner a) g1) as [r1 E1].
  set (c1 := printed (print_diff_gui_call "owner" (owner a) (Some g1)))
    in *.
  rewrite E1.
  destruct (origin b) as [g2|].
  2:{ rewrite print_diff_gui_call_None.
      cbn [seq fst snd is_NULL printed negb andb].
      rewrite !app_nil_r. reflexivity. }
  destruct (print_diff_gui_call_Some "origin" (origin a) g2) as [r2 E2].
  set (c2 := printed (print_diff_gui_call "origin" (origin a) (Some g2)))
    in *.
  rewrite E2.
  destruct (target b) as [g3|].
  2:{ rewrite print_diff_gui_call_None.
      cbn [seq fst snd is_NULL printed negb andb].
      rewrite !app_nil_r. reflexivity. }
  destruct (print_diff_gui_call_Some "target" (target a) g3) as [r3 E3].
  set (c3 := printed (print_diff_gui_call "target" (target a) (Some g3)))
    in *.
  rewrite E3. cbn [seq fst snd is_NULL negb andb]. reflexivity.
Qed.

Lemma in_if_nil (c : bool) (l : list output) o :
  In o (if c then [] else l) <-> c = false /\ In o l.
Proof. destruct c; cbn [In]; intuition discriminate. Qed.

Lemma is_NULL_false {X} (p : option X) : is_NULL p = false <-> p <> None.
Proof. destruct p; cbn; intuition congruence. Qed.

Lemma in_print_diff_gui a b threadname o :
  In o (printed (print_diff_gui a b threadname))
  <-> o = gui_changed threadname a b
      /\ same_stuff (fill_stuff a) (fill_stuff b) = false.
Proof.
  rewrite print_diff_gui_cases.
  destruct (same_stuff _ _); cbn; intuition congruence.
Qed.

(** What a call reports: a change from the literal, read as a struct gui,
    to the context of the old record, under the text read at the context
    of the new record. *)
Lemma in_print_diff_gui_call literal x y o :
  In o (printed (print_diff_gui_call literal x y))
  <-> exists g,
        y = Some g
        /\ o = gui_changed (gui_as_text mem g)
                 (Some (literal_as_gui mem literal)) x
        /\ same_stuff (fill_stuff (Some (literal_as_gui mem literal)))
                      (fill_stuff x) = false.
Proof.
  rewrite print_diff_gui_call_cases. destruct y as [g|].
  - rewrite in_print_diff_gui. split.
    + intros [-> H]. exists g. auto.
    + intros (g' & E & -> & H). injection E as <-. auto.
  - split; [intros []|]. intros (g & E & _). discriminate E.
Qed.

Lemma in_print_flags_parts w x y o :
  In o (printed (print_flags_parts w x y))
  <-> (o = flags_same w (to_BYTE (Z.land x y))
       /\ to_BYTE (Z.land x y) <> 0)
      \/ (o = flags_removed w (to_BYTE (Z.land x (Z.lnot y)))
          /\ to_BYTE (Z.land x (Z.lnot y)) <> 0)
      \/ (o = flags_added w (to_BYTE (Z.land y (Z.lnot x)))
          /\ to_BYTE (Z.land y (Z.lnot x)) <> 0).
Proof.
  rewrite printed_print_flags_parts, !in_app_iff.
  destruct (Z.eqb_spec (to_BYTE (Z.land x y)) 0),
    (Z.eqb_spec (to_BYTE (Z.land x (Z.lnot y))) 0),
    (Z.eqb_spec (to_BYTE (Z.land y (Z.lnot x))) 0); cbn [In];
    intuition congruence.
Qed.

(** What print_diff_hook prints, and when. *)
Lemma in_print_diff_hook a b deskname o :
  In o (printed (print_diff_hook a b deskname))
  <-> (bFlags (entry a) <> bFlags (entry b)
       /\ (o = hook_notice_begin b deskname HOOK_MODIFIED
           \/ o = handleentry_flags_changed
           \/ In o (printed (print_flags_parts of_HANDLEENTRY
                               (bFlags (entry a)) (bFlags (entry b))))))
      \/ In o (printed (print_diff_gui_call "owner" (owner a) (owner b)))
      \/ (owner b <> None
          /\ ((h (head (object a)) <> h (head (object b))
               /\ o = handle_changed (h (head (object a)))
                                     (h (head (object b))))
              \/ (cLockObj (head (object a)) <> cLockObj (head (object b))
                  /\ o = lock_count_changed (cLockObj (head (object a)))
                                            (cLockObj (head (object b))))
              \/ In o (printed (print_diff_gui_call "origin"
                                  (origin a) (origin b)))
              \/ (origin b <> None
                  /\ ((rpdesk1 (object a) <> rpdesk1 (object b)
                       /\ o = rpdesk1_changed (rpdesk1 (object a))
                                              (rpdesk1 (object b)))
                      \/ (pSelf (object a) <> pSelf (object b)
                          /\ o = kernel_address_changed (pSelf (object a))
                                                        (pSelf (object b)))
                      \/ (phkNext (object a) <> phkNext (object b)
                          /\ o = chain_modified (phkNext (object a))
                                                (phkNext (object b)))
                      \/ (iHook (object a) <> iHook (object b)
                          /\ o = hook_id_changed (iHook (object a))
                                                 (iHook (object b)))
                      \/ (offPfn (object a) <> offPfn (object b)
                          /\ o = function_offset_changed (offPfn (object a))
                                                         (offPfn (object b)))
                      \/ (flags (object a) <> flags (object b)
                          /\ (o = hook_flags_changed
                              \/ In o (printed (print_flags_parts of_HOOK
                                                  (flags (object a))
                                                  (flags (object b))))))
                      \/ (ihmod (object a) <> ihmod (object b)
                          /\ o = module_index_changed (ihmod (object a))
                                                      (ihmod (object b)))
                      \/ In o (printed (print_diff_gui_call "target"
                                          (target a) (target b)))
                      \/ (target b <> None
                          /\ rpdesk2 (object a) <> rpdesk2 (object b)
                          /\ o = rpdesk2_changed (rpdesk2 (object a))
                                                 (rpdesk2 (object b))))))).
Proof.
  rewrite print_diff_hook_blocks. unfold printed at 1. cbn [fst].
  repeat (rewrite in_app_iff || rewrite in_if_nil).
  rewrite !is_NULL_false, !Z.eqb_neq. cbn [In].
  intuition congruence.
Qed.

(** ** Runs that return *)

(** A comparison returns exactly when the three contexts of the new
    record are there; it stops on FAIL_IF( !threadname ) when one is NULL. *)
Lemma print_diff_hook_outcome a b deskname :
  outcome (print_diff_hook a b deskname)
  = if contexts_present b then Return tt else Stop failed.
Proof. rewrite print_diff_hook_blocks. reflexivity. Qed.

Lemma contexts_present_true b : contexts_present b = true <-> has_contexts b.
Proof.
  unfold contexts_present, has_contexts.
  rewrite !andb_true_iff, !negb_true_iff, !is_NULL_false. tauto.
Qed.

Lemma print_diff_hook_returns a b deskname :
  has_contexts b -> outcome (print_diff_hook a b deskname) = Return tt.
Proof.
  intros H. apply contexts_present_true in H.
  rewrite print_diff_hook_outcome, H. reflexivity.
Qed.

(** With pid entries that are pids, a verdict that is comparable does not
    stop the process. *)
Lemma perform_returns cfg deskname v :
  pids_nonzero cfg -> comparable v ->
  outcome (perform cfg deskname v) = Return tt.
Proof.
  intros Hnz Hv.
  destruct v as [[|] x|[|] x|x y]; cbn [perform];
    try rewrite (is_hook_wanted_ret x Hnz), bind_return_l;
    try reflexivity; try (apply print_diff_hook_returns; exact Hv);
    destruct (wanted cfg x); reflexivity.
Qed.

Lemma for_each_returns {X} (f : X -> io unit) (l : list X) :
  (forall x, In x l -> outcome (f x) = Return tt) ->
  outcome (for_each f l) = Return tt
  /\ printed (for_each f l) = flat_map (fun x => printed (f x)) l.
Proof.
  induction l as [|x l IH]; intros Hf; cbn [for_each flat_map];
    [split; reflexivity|].
  destruct IH as [IHo IHp]; [intros y Hy; apply Hf; right; exact Hy|].
  pose proof (Hf x (or_introl eq_refl)) as Hx.
  rewrite (outcome_seq _ _ Hx), printed_seq, Hx, IHp. split; trivial.
Qed.

Lemma for_each_Return {X} (f : X -> io unit) (l : list X) :
  outcome (for_each f l) = Return tt ->
  forall x, In x l -> outcome (f x) = Return tt.
Proof.
  induction l as [|y l IH]; cbn [for_each]; intros H x Hx; [destruct Hx|].
  destruct (f y) as [o [[]|s]] eqn:E; [|discriminate H].
  destruct Hx as [<-|Hx]; [rewrite E; reflexivity|].
  apply IH; trivial.
Qed.

(** With an empty new array the old records are all leftovers: each gets
    its Removed notice, whatever the filter says. *)
Lemma diff_loops_new_empty cfg deskname a b :
  hook_arr b = [] ->
  diff_loops cfg deskname a b
  = for_each (fun x => print_hook_notice x deskname HOOK_REMOVED) (hook_arr a).
Proof.
  intros Hb. rewrite diff_loops_merge_join, Hb, merge_join_nil_r, for_each_map.
  reflexivity.
Qed.

Lemma in_printed_seq {A B} (m : io A) (k : io B) o :
  In o (printed (m ;; k)) -> In o (printed m) \/ In o (printed k).
Proof.
  rewrite printed_seq, in_app_iff. destruct (outcome m); cbn; tauto.
Qed.


(** * The claims *)

(** C1. Merge-join correctness, and where print_diff_desktop_hook_items
    falls short of it. For two hook arrays sorted strictly ascending by
    identity key (hence without duplicate keys), the three loops perform, in
    order, the verdicts of the merge-join, as far as no verdict stops the
    process; and, when its guards pass, so does the function. A record whose
    key is only in the old array is classified Removed and nothing else, a
    record whose key is only in the new array is classified Added and
    nothing else, and two records with one key are compared by
    print_diff_hook and classified nothing else. Every verdict is about
    such records. There are at most hook_count a + hook_count b verdicts,
    so at most that many are printed as events, and at most that many
    notices are in the output. With a policy whose pid entries are not 0,
    and when every new record that is compared has its three thread
    contexts, no verdict stops the process: every record is dealt with and
    the output is that of all verdicts in order. But a comparison of a new
    record without one of its contexts stops the process, by the guard
    FAIL_IF( !threadname ) of print_diff_gui, to which print_diff_hook
    gives that context as threadname: the loops do not return then, and the
    records after it are not dealt with. With the keys 1, 3, 5 and 1, 4, 5
    of records without contexts the run of the loops, and of the function,
    is that of print_diff_hook on the two records of key 1: the process is
    stopped there and nothing is printed. *)
Theorem merge_join_classifies :
  (forall cfg a b,
     ascending (hook_arr a) -> ascending (hook_arr b) ->
     let steps := merge_join (hook_arr a) (hook_arr b) in
     (forall deskname,
        diff_loops cfg deskname a b = for_each (perform cfg deskname) steps)
     /\ (forall da db,
           desktop a = Some da -> desktop b = Some db ->
           desktop_ptr da = desktop_ptr db -> hook_max a = hook_max b ->
           print_diff_desktop_hook_items cfg a b
           = for_each (perform cfg (pwszDesktopName db)) steps)
     /\ (forall x, In x (hook_arr a) -> ~ In (key x) (keys (hook_arr b)) ->
           (exists p, In (Removed p x) steps)
           /\ (forall p, ~ In (Added p x) steps)
           /\ (forall y,
                 ~ In (Compared x y) steps /\ ~ In (Compared y x) steps))
     /\ (forall y, In y (hook_arr b) -> ~ In (key y) (keys (hook_arr a)) ->
           (exists p, In (Added p y) steps)
           /\ (forall p, ~ In (Removed p y) steps)
           /\ (forall x,
                 ~ In (Compared x y) steps /\ ~ In (Compared y x) steps))
     /\ (forall x y,
           In x (hook_arr a) -> In y (hook_arr b) -> key x = key y ->
           In (Compared x y) steps
           /\ (forall deskname,
                 perform cfg deskname (Compared x y)
                 = print_diff_hook x y deskname)
           /\ (forall p, ~ In (Removed p x) steps)
           /\ (forall p, ~ In (Added p y) steps))
     /\ (forall v, In v steps ->
           match v with
           | Removed _ x =>
               In x (hook_arr a) /\ ~ In (key x) (keys (hook_arr b))
           | Added _ y =>
               In y (hook_arr b) /\ ~ In (key y) (keys (hook_arr a))
           | Compared x y =>
               In x (hook_arr a) /\ In y (hook_arr b) /\ key x = key y
           end)
     /\ (List.length steps <= hook_count a + hook_count b)%nat
     /\ (forall deskname,
           (List.length (events cfg deskname steps)
            <= hook_count a + hook_count b)%nat
           /\ (notices (printed (diff_loops cfg deskname a b))
               <= hook_count a + hook_count b)%nat)
     /\ (pids_nonzero cfg ->
         (forall v, In v steps -> comparable v) ->
         forall deskname,
           outcome (diff_loops cfg deskname a b) = Return tt
           /\ printed (diff_loops cfg deskname a b)
              = flat_map (fun v => printed (perform cfg deskname v)) steps))
  /\ (forall cfg deskname a b x y,
        In (Compared x y) (merge_join (hook_arr a) (hook_arr b)) ->
        ~ has_contexts y ->
        outcome (diff_loops cfg deskname a b) <> Return tt)
  /\ diff_loops no_filter (L "Default") old_1_3_5 new_1_4_5
     = ([], Stop failed)
  /\ print_diff_desktop_hook_items no_filter old_1_3_5 new_1_4_5
     = print_diff_hook (hook_of 1 2 None) (hook_of 1 2 None) (L "Default")
  /\ print_diff_hook (hook_of 1 2 None) (hook_of 1 2 None) (L "Default")
     = ([], Stop failed).
Proof.
  split; [|split; [|split; [|split]]].
  3,4,5: vm_compute; reflexivity.
  2:{ intros cfg deskname a b x y Hv Hy.
      rewrite diff_loops_merge_join. intros H.
      apply (for_each_Return _ _ H) in Hv. cbn [perform] in Hv.
      rewrite print_diff_hook_outcome in Hv.
      destruct (contexts_present y) eqn:E; [|discriminate Hv].
      apply Hy, contexts_present_true, E. }
  intros cfg a b Ha Hb steps.
  apply ascending_strongly in Ha, Hb.
  pose proof (merge_join_sound _ _ Ha Hb) as Hsound. fold steps in Hsound.
  pose proof (merge_join_length (hook_arr a) (hook_arr b)) as Hlen.
  fold steps in Hlen.
  assert (Hloops : forall deskname,
    diff_loops cfg deskname a b = for_each (perform cfg deskname) steps)
    by (intros; apply diff_loops_merge_join).
  split; [exact Hloops|].
  split.
  { intros da db Hda Hdb Hp Hm.
    rewrite (print_diff_desktop_hook_items_guards cfg _ _ Hda Hdb Hp Hm).
    apply Hloops. }
  split.
  { intros x Hx Hk. split; [|split].
    - destruct (merge_join_old _ (hook_arr b) _ Hx) as [H|[y H]]; [exact H|].
      apply Hsound in H. destruct H as (_ & Hy & E).
      exfalso. apply Hk. rewrite E. apply in_keys, Hy.
    - intros p H. apply Hsound in H. destruct H as [H _].
      apply Hk, in_keys, H.
    - intros y. split; intros H; apply Hsound in H.
      + destruct H as (_ & Hy & E). apply Hk. rewrite E. apply in_keys, Hy.
      + destruct H as (_ & Hy & E). apply Hk, in_keys, Hy. }
  split.
  { intros y Hy Hk. split; [|split].
    - destruct (merge_join_new (hook_arr a) _ _ Hy) as [H|[x H]]; [exact H|].
      apply Hsound in H. destruct H as (Hx & _ & E).
      exfalso. apply Hk. rewrite <- E. apply in_keys, Hx.
    - intros p H. apply Hsound in H. destruct H as [H _].
      apply Hk, in_keys, H.
    - intros x. split; intros H; apply Hsound in H.
      + destruct H as (Hx & _ & E). apply Hk. rewrite <- E. apply in_keys, Hx.
      + destruct H as (Hx & _ & E). apply Hk, in_keys, Hx. }
  split.
  { intros x y Hx Hy E. split; [|split; [reflexivity|split]].
    - destruct (merge_join_old _ (hook_arr b) _ Hx) as [[p H]|[y' H]].
      + apply Hsound in H. destruct H as [_ H].
        exfalso. apply H. rewrite E. apply in_keys, Hy.
      + pose proof (Hsound _ H) as (_ & Hy' & E').
        assert (y' = y) by (apply (ascending_key_inj _ _ _ Hb); congruence).
        subst y'. exact H.
    - intros p H. apply Hsound in H. destruct H as [_ H].
      apply H. rewrite E. apply in_keys, Hy.
    - intros p H. apply Hsound in H. destruct H as [_ H].
      apply H. rewrite <- E. apply in_keys, Hx. }
  split; [exact Hsound|].
  split; [exact Hlen|].
  split.
  { intros deskname. split.
    - unfold events. etransitivity; [apply filter_length_le|exact Hlen].
    - rewrite Hloops. etransitivity; [apply for_each_notices|exact Hlen]. }
  intros Hnz Hcmp deskname. rewrite Hloops.
  apply for_each_returns. intros v Hv. apply perform_returns; auto.
Qed.

(** C2. For every hook record and every filter policy whose pid entries
    are not 0, is_hook_wanted returns, and returns true exactly when the
    record passes both rules: a disabled rule is passed, an include rule by
    a matching record, an exclude rule by a record that does not match. A
    record matches the program rule when one of its three thread contexts
    matches one entry, by name up to case or by pid, and the hook-type rule
    when its hook id is one of the entries. With "exclude pid=100" and
    "include type=2": a record with pid 100 and type 2 is not wanted, a
    record with pid 200 and type 2 is wanted, a record with pid 200 and
    type 3 is not wanted. *)
Theorem is_hook_wanted_both_rules :
  (forall cfg hook,
     pids_nonzero cfg -> is_hook_wanted cfg hook = return_ (wanted cfg hook))
  /\ (forall hook,
        In 100 (record_pids hook) -> iHook (object hook) = 2 ->
        is_hook_wanted exclude_100_include_2 hook = return_ false)
  /\ (forall hook,
        Forall (eq 200) (record_pids hook) -> iHook (object hook) = 2 ->
        is_hook_wanted exclude_100_include_2 hook = return_ true)
  /\ (forall hook,
        Forall (eq 200) (record_pids hook) -> iHook (object hook) = 3 ->
        is_hook_wanted exclude_100_include_2 hook = return_ false).
Proof.
  split; [exact is_hook_wanted_ret|].
  assert (H200 : forall l, Forall (eq 200) l ->
            existsb (fun q => 100 =? to_int (to_DWORD q)) l = false).
  { induction 1 as [|q l <- _ IH]; [reflexivity|]. cbn [existsb].
    rewrite IH. reflexivity. }
  repeat split; intros hook Hp Ht;
    rewrite (is_hook_wanted_ret _ pids_nonzero_exclude_100_include_2),
      wanted_exclude_100_include_2, Ht.
  - replace (existsb _ (record_pids hook)) with true; [reflexivity|].
    symmetry. apply existsb_exists. exists 100. split; [exact Hp|reflexivity].
  - rewrite (H200 _ Hp). reflexivity.
  - rewrite (H200 _ Hp). reflexivity.
Qed.

Lemma is_hook_wanted_both_rules_witness :
  is_hook_wanted exclude_pid_100 hook_100_2
  = return_ (wanted exclude_pid_100 hook_100_2)
  /\ is_hook_wanted exclude_100_include_2 hook_200_2 = return_ true
  /\ is_hook_wanted exclude_100_include_2 hook_100_2 = return_ false.
Proof.
  split; [|split].
  - apply (proj1 is_hook_wanted_both_rules exclude_pid_100 hook_100_2).
    repeat constructor. cbn. lia.
  - apply (proj1 (proj2 (proj2 is_hook_wanted_both_rules)) hook_200_2).
    + repeat constructor.
    + reflexivity.
  - apply (proj1 (proj2 is_hook_wanted_both_rules) hook_100_2).
    + cbn. tauto.
    + reflexivity.
Defined.

(** Counterexample to C2 as stated, a policy with the pid entry 0: the
    record passes the rule "exclude pid=0", yet is_hook_wanted does not
    return true, the guard FAIL_IF( !pid ) stops the process. *)
Lemma is_hook_wanted_pid_0_aborts :
  wanted exclude_pid_0 hook_200_2 = true
  /\ is_hook_wanted exclude_pid_0 hook_200_2 = ([], Stop failed)
  /\ ~ (forall cfg hook, is_hook_wanted cfg hook = return_ (wanted cfg hook)).
Proof.
  split; [reflexivity|]. split; [reflexivity|].
  intros H. specialize (H exclude_pid_0 hook_200_2). discriminate H.
Qed.

(** C3. For two session snapshots whose desktop lists have different
    lengths, print_diff_desktop_hook_lists first compares the desktop pairs
    at the common positions, printing their change events, and then prints
    the diagnostic and exits with status 1; nothing is printed for the
    unmatched tail and the function never returns. A contract failure in a
    pair stops the process earlier. *)
Theorem hook_lists_fatal_after_common_pairs cfg list1 list2 :
  List.length list1 <> List.length list2 ->
  print_diff_desktop_hook_lists cfg list1 list2
  = (for_each (diff_pair cfg) (combine list1 list2) ;;
     MSG_FATAL "The desktop hook stores could not be fully compared." ;;
     exit 1)
  /\ (outcome (for_each (diff_pair cfg) (combine list1 list2)) = Return tt ->
      print_diff_desktop_hook_lists cfg list1 list2
      = (printed (for_each (diff_pair cfg) (combine list1 list2))
         ++ [fatal_message
               "The desktop hook stores could not be fully compared."],
         Stop (exited 1)))
  /\ (forall s,
        outcome (for_each (diff_pair cfg) (combine list1 list2)) = Stop s ->
        print_diff_desktop_hook_lists cfg list1 list2
        = (printed (for_each (diff_pair cfg) (combine list1 list2)), Stop s))
  /\ outcome (print_diff_desktop_hook_lists cfg list1 list2) <> Return tt.
Proof.
  intros Hlen. rewrite print_diff_desktop_hook_lists_combine.
  apply Nat.eqb_neq in Hlen. rewrite Hlen. cbn [negb when].
  destruct (for_each (diff_pair cfg) (combine list1 list2)) as [o [[]|s]].
  - split; [reflexivity|]. split; [reflexivity|].
    split; [intros s E; discriminate E|discriminate].
  - split; [reflexivity|]. split; [intros E; discriminate E|].
    split; [|discriminate].
    intros s' E. injection E as <-. reflexivity.
Qed.





(** C4. The trailing loops print the notice of a leftover record without
    asking the filter. Under "exclude pid=100" the only record of the old
    array, of pid 100, is not wanted, and its Removed notice is printed;
    likewise its Added notice when it is the only record of the new array;
    the same record met in the main loop gets no notice. For every policy,
    with an empty new array every old record gets its Removed notice. *)
Theorem leftover_notice_not_filtered :
  is_hook_wanted exclude_pid_100 hook_100_2 = return_ false
  /\ print_diff_desktop_hook_items exclude_pid_100
       (desktop_hooks Default [hook_100_2] 8) (desktop_hooks Default [] 8)
     = ([hook_notice_begin hook_100_2 (L "Default") HOOK_REMOVED;
         hook_notice_end], Return tt)
  /\ print_diff_desktop_hook_items exclude_pid_100
       (desktop_hooks Default [] 8) (desktop_hooks Default [hook_100_2] 8)
     = ([hook_notice_begin hook_100_2 (L "Default") HOOK_ADDED;
         hook_notice_end], Return tt)
  /\ print_diff_desktop_hook_items exclude_pid_100
       (desktop_hooks Default [hook_100_2] 8)
       (desktop_hooks Default [hook_of 5 2 None] 8)
     = ([hook_notice_begin (hook_of 5 2 None) (L "Default") HOOK_ADDED;
         hook_notice_end], Return tt)
  /\ (forall cfg d l max,
        print_diff_desktop_hook_items cfg
          (desktop_hooks d l max) (desktop_hooks d [] max)
        = for_each
            (fun x => print_hook_notice x (pwszDesktopName d) HOOK_REMOVED) l).
Proof.
  split; [vm_compute; reflexivity|].
  split; [vm_compute; reflexivity|].
  split; [vm_compute; reflexivity|].
  split; [vm_compute; reflexivity|].
  intros cfg d l max.
  rewrite (print_diff_desktop_hook_items_guards cfg
             (desktop_hooks d l max) (desktop_hooks d [] max)
             (da := d) (db := d)) by reflexivity.
  apply diff_loops_new_empty. reflexivity.
Qed.

(** C5. In the main loop, with both cursors inside their arrays: when the
    old key is smaller, the iteration asks the filter about the old record,
    prints its Removed notice exactly when the filter returns nonzero, and
    the loop goes on with a_hi + 1 and the same b_hi; when the new key is
    smaller, it does so with the new record and the Added notice, and goes
    on with the same a_hi and b_hi + 1. *)
Theorem merge_while_gated_notice cfg deskname a b a_hi b_hi a_hook b_hook :
  nth_error (hook_arr a) a_hi = Some a_hook ->
  nth_error (hook_arr b) b_hi = Some b_hook ->
  (key a_hook < key b_hook ->
   merge_while cfg deskname a b a_hi b_hi
   = ((wanted <- is_hook_wanted cfg a_hook ;;
       when wanted (print_hook_notice a_hook deskname HOOK_REMOVED)) ;;
      merge_while cfg deskname a b (S a_hi) b_hi)
   /\ printed (wanted <- is_hook_wanted cfg a_hook ;;
               when wanted (print_hook_notice a_hook deskname HOOK_REMOVED))
      = if holds (is_hook_wanted cfg a_hook)
        then [hook_notice_begin a_hook deskname HOOK_REMOVED; hook_notice_end]
        else [])
  /\ (key b_hook < key a_hook ->
      merge_while cfg deskname a b a_hi b_hi
      = ((wanted <- is_hook_wanted cfg b_hook ;;
          when wanted (print_hook_notice b_hook deskname HOOK_ADDED)) ;;
         merge_while cfg deskname a b a_hi (S b_hi))
      /\ printed (wanted <- is_hook_wanted cfg b_hook ;;
                  when wanted (print_hook_notice b_hook deskname HOOK_ADDED))
         = if holds (is_hook_wanted cfg b_hook)
           then [hook_notice_begin b_hook deskname HOOK_ADDED; hook_notice_end]
           else []).
Proof.
  intros Ha Hb.
  assert (Hgate : forall x d,
    printed (wanted <- is_hook_wanted cfg x ;;
             when wanted (print_hook_notice x deskname d))
    = if holds (is_hook_wanted cfg x)
      then [hook_notice_begin x deskname d; hook_notice_end] else []).
  { intros x d. unfold holds.
    pose proof (is_hook_wanted_silent cfg x) as Hs.
    destruct (is_hook_wanted cfg x) as [o [[|]|s]]; cbn in Hs; subst o;
      reflexivity. }
  rewrite (merge_while_step _ _ _ _ _ _ Ha Hb), compare_hook_lt.
  split; intros Hk.
  - rewrite (proj2 (Z.ltb_lt _ _) Hk). split; [reflexivity|apply Hgate].
  - assert (Hlt : (key a_hook <? key b_hook) = false)
      by (apply Z.ltb_ge; lia).
    rewrite Hlt, (compare_hook_gt _ _ Hlt), (proj2 (Z.ltb_lt _ _) Hk).
    split; [reflexivity|apply Hgate].
Qed.




(** C7. print_diff_gui reports no change (returns 0 and prints nothing)
    exactly when the thread-local address, the per-thread-info address,
    the thread id, the process id and the image-name Length are identical
    and the image names agree as wide strings (wcsncmp: the same
    characters up to the first NUL, Length characters at most); else it
    prints the change and returns nonzero. An absent context counts as
    NULL addresses, zero ids and the name "<unknown>". For image names
    whose Length is the byte length of the NUL-terminated string in their
    buffer, no change is reported exactly when all six attributes,
    image-name bytes included, are identical. Against an absent context, no
    change is reported exactly for a context that shows NULL addresses,
    zero ids and the name "<unknown>"; a context with a resolved process
    (a pid that is not 0) is reported as changed. *)
Theorem print_diff_gui_compares :
  (forall a b threadname,
     (print_diff_gui a b threadname = return_ false
      <-> stuff_pvTeb (fill_stuff a) = stuff_pvTeb (fill_stuff b)
          /\ stuff_pvWin32ThreadInfo (fill_stuff a)
             = stuff_pvWin32ThreadInfo (fill_stuff b)
          /\ tid (fill_stuff a) = tid (fill_stuff b)
          /\ pid (fill_stuff a) = pid (fill_stuff b)
          /\ Length (stuff_ImageName (fill_stuff a))
             = Length (stuff_ImageName (fill_stuff b))
          /\ names_agree (fill_stuff a) (fill_stuff b))
     /\ (print_diff_gui a b threadname = return_ false
         \/ print_diff_gui a b threadname
            = ([gui_changed threadname a b], Return true)))
  /\ (forall a b threadname,
        well_named a -> well_named b ->
        (print_diff_gui a b threadname = return_ false
         <-> identical (fill_stuff a) (fill_stuff b)))
  /\ fill_stuff None
     = {| stuff_pvWin32ThreadInfo := 0; stuff_pvTeb := 0; tid := 0; pid := 0;
          stuff_ImageName := {| Length := 18; MaximumLength := 20;
                                Buffer := Some unknown |} |}
  /\ (forall g threadname,
        print_diff_gui None (Some g) threadname = return_ false
        <-> shows_unknown g)
  /\ (forall g threadname,
        resolved g ->
        print_diff_gui None (Some g) threadname
        = ([gui_changed threadname None (Some g)], Return true)).
Proof.
  split.
  { intros a b threadname. split.
    - rewrite print_diff_gui_false. apply same_stuff_true.
    - rewrite print_diff_gui_cases. destruct (same_stuff _ _); auto. }
  split.
  { intros a b threadname Ha Hb.
    rewrite print_diff_gui_false, same_stuff_true. unfold identical.
    split; intros (H1 & H2 & H3 & H4 & H5 & H6); repeat split; trivial;
      apply (counted_names_agree _ _ Ha Hb H5); exact H6. }
  split; [reflexivity|].
  split; [exact print_diff_gui_none|exact print_diff_gui_resolved].
Qed.

Lemma print_diff_gui_compares_witness :
  (print_diff_gui (Some (gui_of 100 notepad)) None "owner" = return_ false
   <-> identical (fill_stuff (Some (gui_of 100 notepad))) (fill_stuff None))
  /\ print_diff_gui None (Some gui_unknown) "owner" = return_ false
  /\ print_diff_gui None (Some (gui_of 100 notepad)) "owner"
     = ([gui_changed "owner" None (Some (gui_of 100 notepad))], Return true).
Proof.
  split; [|split].
  - apply (proj1 (proj2 print_diff_gui_compares)
             (Some (gui_of 100 notepad)) None "owner"%string);
      reflexivity.
  - apply (proj1 (proj2 (proj2 (proj2 print_diff_gui_compares)))
             gui_unknown "owner"%string).
    repeat split; reflexivity.
  - apply (proj2 (proj2 (proj2 (proj2 print_diff_gui_compares)))
             (gui_of 100 notepad) "owner"%string).
    eexists. split; [reflexivity|]. cbn. lia.
Defined.

(** Counterexample to C7 as stated, in both directions. The image names
    "a\0b" and "a\0c" of Length 6 differ in their bytes, and no change is
    reported, since wcsncmp stops at the NUL. The image names of Length 2
    in the buffers "ax" and "ay" have the same bytes, and a change is
    reported, since wcsncmp is given the Length in bytes as its number of
    characters. *)
Lemma print_diff_gui_ignores_after_NUL :
  (print_diff_gui (Some gui_a_nul_b) (Some gui_a_nul_c) "owner"
   = return_ false
   /\ name_bytes (stuff_ImageName (fill_stuff (Some gui_a_nul_b)))
      = [97; 0; 0; 0; 98; 0]
   /\ name_bytes (stuff_ImageName (fill_stuff (Some gui_a_nul_c)))
      = [97; 0; 0; 0; 99; 0]
   /\ ~ identical (fill_stuff (Some gui_a_nul_b))
                  (fill_stuff (Some gui_a_nul_c)))
  /\ (print_diff_gui (Some gui_a_then_x) (Some gui_a_then_y) "owner"
      = ([gui_changed "owner" (Some gui_a_then_x) (Some gui_a_then_y)],
         Return true)
      /\ identical (fill_stuff (Some gui_a_then_x))
                   (fill_stuff (Some gui_a_then_y))).
Proof.
  split.
  - split; [reflexivity|]. split; [reflexivity|]. split; [reflexivity|].
    intros (_ & _ & _ & _ & _ & H). discriminate H.
  - split; [reflexivity|]. repeat split.
Qed.

(** C8. Two identical hook records. print_diff_hook prints no header
    and no change of a field for them; but it gives the context of the new
    record to print_diff_gui as threadname, and the literal as the old
    context. So for records without an owner (origin, target) the process
    is stopped by FAIL_IF( !threadname ), and the comparison does not
    return: it returns exactly for records with their three contexts. And
    what it then compares is the literal, read as a struct gui, with the
    context of the record: when the two differ, a change of the thread
    context is printed for identical records. *)
Theorem print_diff_hook_identical :
  print_diff_hook (hook_of 1 2 None) (hook_of 1 2 None) (L "Default")
  = ([], Stop failed)
  /\ (forall a deskname,
        owner a = None -> print_diff_hook a a deskname = ([], Stop failed))
  /\ (forall a deskname,
        outcome (print_diff_hook a a deskname)
        = if contexts_present a then Return tt else Stop failed)
  /\ (forall a deskname o,
        In o (printed (print_diff_hook a a deskname)) ->
        exists threadname x y, o = gui_changed threadname x y)
  /\ (forall a deskname g,
        owner a = Some g ->
        same_stuff (fill_stuff (Some (literal_as_gui mem "owner")))
                   (fill_stuff (owner a)) = false ->
        In (gui_changed (gui_as_text mem g)
              (Some (literal_as_gui mem "owner")) (owner a))
           (printed (print_diff_hook a a deskname))).
Proof.
  split; [reflexivity|]. split; [|split; [|split]].
  - intros a deskname Ho.
    rewrite print_diff_hook_blocks. unfold contexts_present.
    rewrite Ho, Z.eqb_refl. reflexivity.
  - intros a deskname. apply print_diff_hook_outcome.
  - intros a deskname o.
    rewrite in_print_diff_hook, !in_print_diff_gui_call.
    intros H.
    repeat match goal with
    | H : _ \/ _ |- _ => destruct H as [H|H]
    | H : _ /\ _ |- _ => destruct H
    | H : exists _, _ |- _ => destruct H
    | H : ?x <> ?x |- _ => destruct (H eq_refl)
    end; subst; eauto.
  - intros a deskname g Ho Hs.
    apply in_print_diff_hook. right. left.
    apply in_print_diff_gui_call. exists g. auto.
Qed.

(** C9. For two flags values A (old) and B (new), the three parts
    A&B (same), A&~B (removed) and B&~A (added) partition the union:
    (A&B) | (A&~B) | (B&~A) = A | B and (A&~B) & (B&~A) = 0.
    print_diff_hook computes each part into its BYTE temp and prints a part
    exactly when it is not 0, hence only when the part is not 0; the
    three bytes make up the byte of A|B and the removed and the added byte
    share no bit. For flags that are bytes the temps are the parts
    themselves. *)
Theorem flags_decomposition_partitions o A B :
  let same := to_BYTE (Z.land A B) in
  let removed := to_BYTE (Z.land A (Z.lnot B)) in
  let added := to_BYTE (Z.land B (Z.lnot A)) in
  Z.lor (Z.lor (Z.land A B) (Z.land A (Z.lnot B))) (Z.land B (Z.lnot A))
  = Z.lor A B
  /\ Z.land (Z.land A (Z.lnot B)) (Z.land B (Z.lnot A)) = 0
  /\ Z.lor (Z.lor same removed) added = to_BYTE (Z.lor A B)
  /\ Z.land removed added = 0
  /\ print_flags_parts o A B
     = ((if same =? 0 then [] else [flags_same o same])
        ++ (if removed =? 0 then [] else [flags_removed o removed])
        ++ (if added =? 0 then [] else [flags_added o added]),
        Return tt)
  /\ (forall t, In (flags_same o t) (printed (print_flags_parts o A B))
                <-> t = same /\ t <> 0)
  /\ (forall t, In (flags_removed o t) (printed (print_flags_parts o A B))
                <-> t = removed /\ t <> 0)
  /\ (forall t, In (flags_added o t) (printed (print_flags_parts o A B))
                <-> t = added /\ t <> 0)
  /\ (same <> 0 -> Z.land A B <> 0)
  /\ (removed <> 0 -> Z.land A (Z.lnot B) <> 0)
  /\ (added <> 0 -> Z.land B (Z.lnot A) <> 0)
  /\ (0 <= A < 256 -> 0 <= B < 256 ->
      same = Z.land A B
      /\ removed = Z.land A (Z.lnot B)
      /\ added = Z.land B (Z.lnot A)
      /\ Z.lor (Z.lor same removed) added = Z.lor A B).
Proof.
  intros same removed added.
  split; [apply parts_partition|]. split; [apply parts_partition|].
  destruct (flags_parts_partition A B) as [Hunion Hdisjoint].
  split; [exact Hunion|]. split; [exact Hdisjoint|].
  assert (Hout : print_flags_parts o A B
    = ((if same =? 0 then [] else [flags_same o same])
       ++ (if removed =? 0 then [] else [flags_removed o removed])
       ++ (if added =? 0 then [] else [flags_added o added]),
       Return tt)).
  { unfold print_flags_parts. cbv zeta. fold same removed added.
    destruct (same =? 0), (removed =? 0), (added =? 0); reflexivity. }
  split; [exact Hout|].
  rewrite Hout. unfold printed. cbn [fst].
  split; [|split; [|split]];
    try (intros t; rewrite !in_app_iff;
         destruct (Z.eqb_spec same 0), (Z.eqb_spec removed 0),
           (Z.eqb_spec added 0); cbn [In];
         intuition (try discriminate; try congruence)).
  assert (Hzero : forall x, to_BYTE x <> 0 -> x <> 0)
    by (intros x Hx ->; apply Hx; reflexivity).
  split; [apply Hzero|]. split; [apply Hzero|]. split; [apply Hzero|].
  intros HA HB.
  split; [apply land_BYTE, HA|]. split; [apply land_BYTE, HA|].
  split; [apply land_BYTE, HB|].
  fold same removed added in Hunion.
  rewrite Hunion. apply lor_BYTE; trivial.
Qed.

Lemma flags_decomposition_partitions_witness :
  to_BYTE (Z.land 5 6) = Z.land 5 6
  /\ to_BYTE (Z.land 5 (Z.lnot 6)) = Z.land 5 (Z.lnot 6)
  /\ to_BYTE (Z.land 6 (Z.lnot 5)) = Z.land 6 (Z.lnot 5)
  /\ Z.lor (Z.lor (to_BYTE (Z.land 5 6)) (to_BYTE (Z.land 5 (Z.lnot 6))))
           (to_BYTE (Z.land 6 (Z.lnot 5)))
     = Z.lor 5 6.
Proof.
  refine (proj2 (proj2 (proj2 (proj2 (proj2 (proj2 (proj2 (proj2
    (proj2 (proj2 (proj2
       (flags_decomposition_partitions of_HOOK 5 6))))))))))) _ _);
    lia.
Defined.

(** Counterexample to C9 as stated, for every pair of flags values: the
    flags 256 and 512 differ, their union is 768, and the three parts that
    are emitted are BYTEs, all of them 0: none is printed, and their union
    is not that of the flags. *)
Lemma flags_above_low_byte_not_shown :
  print_flags_parts of_HOOK 256 512 = ([], Return tt)
  /\ Z.lor 256 512 = 768
  /\ Z.lor (Z.lor (to_BYTE (Z.land 256 512))
                  (to_BYTE (Z.land 256 (Z.lnot 512))))
           (to_BYTE (Z.land 512 (Z.lnot 256))) = 0
  /\ ~ (forall A B,
          Z.lor (Z.lor (to_BYTE (Z.land A B)) (to_BYTE (Z.land A (Z.lnot B))))
                (to_BYTE (Z.land B (Z.lnot A)))
          = Z.lor A B).
Proof.
  split; [reflexivity|]. split; [reflexivity|]. split; [reflexivity|].
  intros H. specialize (H 256 512). discriminate H.
Qed.

(** C10. print_diff_desktop_hook_items requires the two desktop hook
    items to have the same hook_max: when they differ the process is
    stopped by a FAIL_IF before anything is compared or printed, also when
    both items are of the same desktop. *)
Theorem hook_max_mismatch_aborts cfg a b :
  hook_max a <> hook_max b ->
  print_diff_desktop_hook_items cfg a b = ([], Stop failed).
Proof.
  intros Hm. unfold print_diff_desktop_hook_items.
  (* one of the guards on the desktops may stop the process first *)
  destruct (desktop a) as [da|]; [|reflexivity].
  destruct (desktop b) as [db|]; [|reflexivity].
  cbn [is_NULL FAIL_IF]. rewrite !seq_return_l.
  destruct (same_desktop (Some da) (Some db)); [|reflexivity].
  cbn [negb FAIL_IF]. rewrite seq_return_l.
  (* else the guard on hook_max does *)
  apply Z.eqb_neq in Hm. rewrite Hm. reflexivity.
Qed.



(** * Further properties of diff.c *)

(** ** Matching a GUI thread *)

Lemma wstring_eqb_eq s : forall t, wstring_eqb s t = true <-> s = t.
Proof.
  induction s as [|c s IH]; intros [|d t]; cbn [wstring_eqb];
    try (split; [discriminate|congruence]); [tauto|].
  rewrite andb_true_iff, Z.eqb_eq, IH.
  split; [intros [-> ->]; reflexivity|intros E; injection E; auto].
Qed.

Lemma towlower_idem c : towlower (towlower c) = towlower c.
Proof.
  unfold towlower.
  destruct ((65 <=? c) && (c <=? 90)) eqn:E; [|rewrite E; reflexivity].
  apply andb_true_iff in E. destruct E as [E1 E2].
  apply Z.leb_le in E1, E2.
  replace (c + 32 <=? 90) with false by (symmetry; apply Z.leb_gt; lia).
  rewrite andb_false_r. reflexivity.
Qed.

Lemma c_string_map_towlower s :
  c_string (map towlower s) = map towlower (c_string s).
Proof.
  induction s as [|c s IH]; [reflexivity|]. cbn [map].
  rewrite !c_string_cons, towlower_0. destruct (c =? 0); [reflexivity|].
  cbn [map]. rewrite IH. reflexivity.
Qed.

Lemma c_string_app_NUL s rest : c_string (s ++ 0 :: rest) = c_string s.
Proof.
  induction s as [|c s IH]; [reflexivity|]. cbn [app].
  rewrite !c_string_cons, IH. reflexivity.
Qed.

Lemma same_name_nocase_eq s t :
  same_name_nocase s t = true
  <-> map towlower (c_string s) = map towlower (c_string t).
Proof. apply wstring_eqb_eq. Qed.

(** X1. match_gui_process_name returns nonzero exactly for a thread
    that has process information with an image name buffer whose string
    equals [name] up to the case of the letters A..Z. The answer does not
    change when the letters of [name] are lowered, nor with what follows a
    NUL in [name]. *)
Theorem match_gui_process_name_nocase g name :
  (match_gui_process_name g name = true
   <-> exists p buf,
         spi g = Some p /\ Buffer (ImageName p) = Some buf
         /\ map towlower (c_string buf) = map towlower (c_string name))
  /\ match_gui_process_name g (map towlower name)
     = match_gui_process_name g name
  /\ (forall rest,
        match_gui_process_name g (name ++ 0 :: rest)
        = match_gui_process_name g name).
Proof.
  unfold match_gui_process_name.
  destruct (spi g) as [p|].
  2:{ split; [|auto]. split; [discriminate|].
      intros (p & buf & E & _). discriminate E. }
  destruct (Buffer (ImageName p)) as [buf|] eqn:Hbuf.
  2:{ split; [|auto]. split; [discriminate|].
      intros (q & buf & E & E' & _). congruence. }
  rewrite !wcsicmp_0. split; [|split].
  - rewrite same_name_nocase_eq. split.
    + intros E. exists p, buf. auto.
    + intros (q & buf' & E & E' & H). congruence.
  - unfold same_name_nocase.
    rewrite c_string_map_towlower, map_map.
    rewrite (map_ext _ _ towlower_idem). reflexivity.
  - intros rest. rewrite wcsicmp_0. unfold same_name_nocase.
    rewrite c_string_app_NUL. reflexivity.
Qed.

Lemma to_int_to_DWORD x pid :
  - 2 ^ 31 <= pid < 2 ^ 31 ->
  (pid =? to_int (to_DWORD x)) = ((x - pid) mod 2 ^ 32 =? 0).
Proof.
  intros Hpid. unfold to_int, to_DWORD. rewrite Z.mod_mod by lia.
  change (2 ^ 32) with 4294967296 in *. change (2 ^ 31) with 2147483648 in *.
  pose proof (Z.mod_pos_bound x 4294967296 ltac:(lia)) as Hy.
  pose proof (Z.div_mod x 4294967296 ltac:(lia)) as Hx.
  destruct (Z.eqb_spec ((x - pid) mod 4294967296) 0) as [E|E].
  - apply Z.eqb_eq. apply Zmod_divides in E; [|lia]. destruct E as [k E].
    destruct (Z.ltb_spec (x mod 4294967296) 2147483648); lia.
  - apply Z.eqb_neq. intros E'. apply E. apply Zmod_divides; [lia|].
    destruct (Z.ltb_spec (x mod 4294967296) 2147483648).
    + exists (x / 4294967296). lia.
    + exists (x / 4294967296 + 1). lia.
Qed.

(** X2. match_gui_process_pid stops the process when [pid] is 0, whatever
    the thread. For a pid that is not 0 it returns: zero for a thread without
    process information, and else nonzero exactly when the process id of
    the thread and [pid] agree in their low 32 bits (the process id, a
    HANDLE, is cut to a DWORD). *)
Theorem match_gui_process_pid_low_32_bits g :
  match_gui_process_pid g 0 = ([], Stop failed)
  /\ (forall pid,
        pid <> 0 -> spi g = None -> match_gui_process_pid g pid = return_ false)
  /\ (forall pid p,
        pid <> 0 -> - 2 ^ 31 <= pid < 2 ^ 31 -> spi g = Some p ->
        match_gui_process_pid g pid
        = return_ ((UniqueProcessId p - pid) mod 2 ^ 32 =? 0)).
Proof.
  split; [reflexivity|]. split.
  - intros pid Hpid Hg. unfold match_gui_process_pid, FAIL_IF.
    apply Z.eqb_neq in Hpid. rewrite Hpid, seq_return_l, Hg. reflexivity.
  - intros pid p Hpid Hint Hg. unfold match_gui_process_pid, FAIL_IF.
    apply Z.eqb_neq in Hpid. rewrite Hpid, seq_return_l, Hg.
    rewrite to_int_to_DWORD by exact Hint. reflexivity.
Qed.

Lemma match_gui_process_pid_low_32_bits_witness :
  match_gui_process_pid gui_bare 100 = return_ false
  /\ match_gui_process_pid (gui_of (2 ^ 32 + 100) notepad) 100
     = return_ ((2 ^ 32 + 100 - 100) mod 2 ^ 32 =? 0).
Proof.
  split.
  - apply (proj1 (proj2 (match_gui_process_pid_low_32_bits gui_bare)) 100);
      [lia|reflexivity].
  - apply (proj2 (proj2 (match_gui_process_pid_low_32_bits
                           (gui_of (2 ^ 32 + 100) notepad))) 100
             {| UniqueProcessId := 2 ^ 32 + 100;
                ImageName := {| Length := 22; MaximumLength := 24;
                                Buffer := Some notepad |} |});
      [lia|lia|reflexivity].
Defined.

(** ** The filter, for every policy *)

Lemma proglist_loop_true hook items :
  proglist_loop hook items true = return_ true.
Proof. destruct items; reflexivity. Qed.

Lemma is_pid_0_true i : is_pid_0 i = true <-> name i = None /\ id i = 0.
Proof.
  unfold is_pid_0. rewrite andb_true_iff, Z.eqb_eq.
  destruct (name i); cbn; intuition congruence.
Qed.

Lemma is_pid_0_false i :
  is_pid_0 i = false <-> (name i = None -> id i <> 0).
Proof.
  unfold is_pid_0. destruct (name i); cbn [is_NULL andb].
  - split; [intros _ E; discriminate E|reflexivity].
  - rewrite Z.eqb_neq. split; auto.
Qed.

(** The walk over the program list: it stops the process at a pid entry 0,
    and it ends at the first entry that matches. *)
Lemma proglist_loop_cases hook items :
  proglist_loop hook items false
  = if walks_to_pid_0 hook items then ([], Stop failed)
    else return_ (existsb (entry_matches hook) items).
Proof.
  induction items as [|i items IH];
    cbn [proglist_loop walks_to_pid_0 existsb]; [reflexivity|].
  unfold is_pid_0. destruct (name i) as [n|] eqn:Hn; cbn [is_NULL andb].
  - rewrite bind_return_l, (match_hook_process_name_ret _ _ Hn).
    fold (entry_matches hook i).
    destruct (entry_matches hook i); [apply proglist_loop_true|exact IH].
  - destruct (Z.eqb_spec (id i) 0) as [E|E]; [rewrite E; reflexivity|].
    rewrite match_hook_process_pid_ret, bind_return_l by exact E.
    rewrite (existsb_context_matches_pid _ _ Hn).
    fold (entry_matches hook i).
    destruct (entry_matches hook i); [apply proglist_loop_true|exact IH].
Qed.

Lemma walks_to_pid_0_iff hook items :
  walks_to_pid_0 hook items = true
  <-> exists l1 i l2,
        items = l1 ++ i :: l2 /\ name i = None /\ id i = 0
        /\ Forall (fun j => (name j = None -> id j <> 0)
                            /\ entry_matches hook j = false) l1.
Proof.
  induction items as [|x items IH]; cbn [walks_to_pid_0].
  - split; [discriminate|].
    intros (l1 & i & l2 & E & _). destruct l1; discriminate E.
  - destruct (is_pid_0 x) eqn:Hx.
    + split; [intros _|reflexivity].
      apply is_pid_0_true in Hx. destruct Hx as [Hn Hi].
      exists [], x, items. auto.
    + destruct (entry_matches hook x) eqn:Hm.
      * split; [discriminate|].
        intros (l1 & i & l2 & E & Hn & Hi & Hl).
        destruct l1 as [|j l1]; cbn [app] in E; injection E as <- E.
        -- assert (is_pid_0 x = true) by (apply is_pid_0_true; auto).
           congruence.
        -- apply Forall_cons_iff in Hl. destruct Hl as [[_ Hl] _]. congruence.
      * rewrite IH. split.
        -- intros (l1 & i & l2 & E & Hn & Hi & Hl).
           exists (x :: l1), i, l2. rewrite E.
           repeat split; trivial. constructor; [|exact Hl].
           split; [apply is_pid_0_false, Hx|exact Hm].
        -- intros (l1 & i & l2 & E & Hn & Hi & Hl).
           destruct l1 as [|j l1]; cbn [app] in E; injection E as <- E.
           ++ assert (is_pid_0 x = true) by (apply is_pid_0_true; auto).
              congruence.
           ++ apply Forall_cons_iff in Hl. destruct Hl as [_ Hl].
              exists l1, i, l2. auto.
Qed.

(** The filter either stops the process before it prints, or returns the
    conjunction of the two rules. *)
Lemma is_hook_wanted_cases cfg hook :
  is_hook_wanted cfg hook
  = if filter_stops cfg hook then ([], Stop failed)
    else return_ (wanted cfg hook).
Proof.
  unfold is_hook_wanted, filter_stops, wanted, program_rule, hook_type_rule,
    matches_program_rule, matches_hook_type_rule.
  rewrite hooklist_loop_existsb. cbn [orb].
  change (fun i => existsb (context_matches i) (contexts hook))
    with (entry_matches hook).
  destruct (init_time (proglist cfg) =? 0); cbn [negb andb].
  - rewrite bind_return_l. cbn [passes andb].
    destruct (init_time (hooklist cfg) =? 0); cbn [negb andb passes];
      [reflexivity|].
    destruct (type (hooklist cfg)); cbn;
      try reflexivity;
      destruct (existsb _ (list_head (hooklist cfg))); reflexivity.
  - destruct (type (proglist cfg)) eqn:Ht; cbn [list_type_eqb orb passes];
      rewrite ?proglist_loop_cases;
      try destruct (walks_to_pid_0 hook (list_head (proglist cfg)));
      try reflexivity;
      rewrite !bind_return_l;
      cbn [orb andb negb];
      rewrite ?andb_false_r, ?andb_true_r, ?orb_false_r; cbn [orb];
      try destruct (existsb (entry_matches hook) (list_head (proglist cfg)));
      cbn [negb andb];
      try reflexivity;
      destruct (init_time (hooklist cfg) =? 0); cbn [negb andb passes];
      try reflexivity;
      destruct (type (hooklist cfg)); cbn;
      try reflexivity;
      destruct (existsb _ (list_head (hooklist cfg))); reflexivity.
Qed.

(** X3. For every policy and every record, is_hook_wanted either stops the
    process with nothing printed or returns whether the record passes both
    rules. It stops exactly when the program rule is enabled and its list
    has a pid entry 0 with, before it, no other pid entry 0 and no entry
    that matches the record: the walk over the list ends at the first
    match, and a pid entry 0 that it comes to fails the guard
    FAIL_IF( !pid ). A program list that is not enabled is not walked. *)
Theorem is_hook_wanted_stops_iff cfg hook :
  is_hook_wanted cfg hook
  = (if filter_stops cfg hook then ([], Stop failed)
     else return_ (wanted cfg hook))
  /\ (filter_stops cfg hook = true
      <-> program_rule cfg <> rule_disabled
          /\ exists l1 i l2,
               list_head (proglist cfg) = l1 ++ i :: l2
               /\ name i = None /\ id i = 0
               /\ Forall (fun j => (name j = None -> id j <> 0)
                                   /\ entry_matches hook j = false) l1).
Proof.
  split; [apply is_hook_wanted_cases|].
  unfold filter_stops.
  destruct (program_rule cfg); rewrite ?walks_to_pid_0_iff;
    intuition congruence.
Qed.

(** A pid entry 0 after an entry that matches is not come to. *)
Example is_hook_wanted_pid_0_behind_a_match :
  is_hook_wanted exclude_pid_200_then_0 hook_200_2 = return_ false
  /\ is_hook_wanted exclude_pid_200_then_0 hook_100_2 = ([], Stop failed).
Proof. split; reflexivity. Qed.

Lemma existsb_same_elements {X} (f : X -> bool) l l' :
  (forall x, In x l <-> In x l') -> existsb f l = existsb f l'.
Proof.
  intros H. apply eq_true_iff_eq. rewrite !existsb_exists.
  split; intros [x [Hx Hf]]; exists x; split; trivial; apply H, Hx.
Qed.

(** X4. The answer of the filter does not depend on the order of the list
    entries nor on their number of occurrences: two policies without pid
    entry 0 whose lists are enabled alike and have the same entries give
    the same answer for every record. *)
Theorem is_hook_wanted_entries_as_set cfg cfg' hook :
  pids_nonzero cfg ->
  init_time (proglist cfg') = init_time (proglist cfg) ->
  type (proglist cfg') = type (proglist cfg) ->
  init_time (hooklist cfg') = init_time (hooklist cfg) ->
  type (hooklist cfg') = type (hooklist cfg) ->
  (forall i, In i (list_head (proglist cfg))
             <-> In i (list_head (proglist cfg'))) ->
  (forall i, In i (list_head (hooklist cfg))
             <-> In i (list_head (hooklist cfg'))) ->
  is_hook_wanted cfg' hook = is_hook_wanted cfg hook.
Proof.
  intros Hnz Hpi Hpt Hhi Hht Hp Hh.
  assert (Hnz' : pids_nonzero cfg').
  { unfold pids_nonzero in *. rewrite Forall_forall in *.
    intros i Hi. apply Hnz, Hp, Hi. }
  rewrite (is_hook_wanted_ret hook Hnz), (is_hook_wanted_ret hook Hnz').
  unfold wanted, program_rule, hook_type_rule, matches_program_rule,
    matches_hook_type_rule.
  rewrite Hpi, Hpt, Hhi, Hht.
  rewrite (existsb_same_elements _ _ _ Hp), (existsb_same_elements _ _ _ Hh).
  reflexivity.
Qed.

Lemma is_hook_wanted_entries_as_set_witness :
  is_hook_wanted exclude_200_100_100 hook_100_2
  = is_hook_wanted exclude_100_200 hook_100_2.
Proof.
  apply (@is_hook_wanted_entries_as_set exclude_100_200 exclude_200_100_100
           hook_100_2); try reflexivity.
  - repeat constructor; cbn; lia.
  - intros i. cbn. tauto.
Defined.

(** ** print_diff_gui as a relation *)

Lemma same_stuff_sym x y : same_stuff x y = true -> same_stuff y x = true.
Proof.
  rewrite !same_stuff_true. unfold names_agree.
  intros (H1 & H2 & H3 & H4 & H5 & H6). rewrite <- H5.
  repeat split; congruence.
Qed.

Lemma same_stuff_trans x y z :
  same_stuff x y = true -> same_stuff y z = true -> same_stuff x z = true.
Proof.
  rewrite !same_stuff_true. unfold names_agree.
  intros (H1 & H2 & H3 & H4 & H5 & H6) (K1 & K2 & K3 & K4 & K5 & K6).
  rewrite <- H5 in K6. repeat split; congruence.
Qed.

(** X5. "No change" is an equivalence on optional thread contexts:
    print_diff_gui reports no change between a context and itself; when it
    reports none from a to b it reports none from b to a; and when it
    reports none from a to b and from b to c it reports none from a to c.
    The thread name plays no part. *)
Theorem print_diff_gui_equivalence :
  (forall a t, print_diff_gui a a t = return_ false)
  /\ (forall a b t t',
        print_diff_gui a b t = return_ false ->
        print_diff_gui b a t' = return_ false)
  /\ (forall a b c t t' t'',
        print_diff_gui a b t = return_ false ->
        print_diff_gui b c t' = return_ false ->
        print_diff_gui a c t'' = return_ false).
Proof.
  split; [exact print_diff_gui_same|].
  split; intros *; rewrite !print_diff_gui_false;
    [apply same_stuff_sym|apply same_stuff_trans].
Qed.

Lemma print_diff_gui_equivalence_witness :
  print_diff_gui (Some gui_unknown) None "target" = return_ false
  /\ print_diff_gui (Some gui_unknown) (Some gui_unknown) "owner"
     = return_ false.
Proof.
  split.
  - apply (proj1 (proj2 print_diff_gui_equivalence)
             None (Some gui_unknown) "origin"%string "target"%string).
    reflexivity.
  - apply (proj2 (proj2 print_diff_gui_equivalence)
             (Some gui_unknown) None (Some gui_unknown)
             "origin"%string "target"%string "owner"%string);
      reflexivity.
Defined.

(** ** The events of print_diff_hook *)


Ltac split_all := repeat match goal with |- _ /\ _ => split end.

(** Every case of what an item of the output can be. *)
Ltac break_up :=
  repeat match goal with
  | H : _ \/ _ |- _ => destruct H as [H|H]
  | H : _ /\ _ |- _ => destruct H
  | H : exists _, _ |- _ => destruct H
  end.



Lemma print_flags_parts_headerless w u v o :
  In o (printed (print_flags_parts w u v)) -> is_header o = false.
Proof.
  rewrite in_print_flags_parts.
  intros [[-> _]|[[-> _]|[-> _]]]; reflexivity.
Qed.

Lemma print_diff_gui_call_headerless literal u v o :
  In o (printed (print_diff_gui_call literal u v)) -> is_header o = false.
Proof.
  rewrite in_print_diff_gui_call. intros (g & _ & -> & _). reflexivity.
Qed.

(** An item of the blocks after the first one is no header. *)
Ltac headerless H :=
  repeat match goal with
  | H : _ \/ _ |- _ => destruct H as [H|H]
  | H : _ /\ _ |- _ => destruct H
  | H : False |- _ => destruct H
  | H : In _ (printed (print_flags_parts _ _ _)) |- _ =>
      apply print_flags_parts_headerless in H; exact H
  | H : In _ (printed (print_diff_gui_call _ _ _)) |- _ =>
      apply print_diff_gui_call_headerless in H; exact H
  end; subst; reflexivity.



(** ** Flags that differ and the parts shown *)









(** ** The guards of print_diff_desktop_hook_items *)

(** X12. print_diff_desktop_hook_items requires both items to point to
    one desktop item: when the desktop pointer of either is NULL, or the two
    pointers differ, a FAIL_IF stops the process before anything is compared
    or printed, whatever the hook arrays and hook_max are. *)
Theorem desktop_mismatch_aborts cfg a b :
  (desktop a = None ->
   print_diff_desktop_hook_items cfg a b = ([], Stop failed))
  /\ (desktop b = None ->
      print_diff_desktop_hook_items cfg a b = ([], Stop failed))
  /\ (forall da db,
        desktop a = Some da -> desktop b = Some db ->
        desktop_ptr da <> desktop_ptr db ->
        print_diff_desktop_hook_items cfg a b = ([], Stop failed)).
Proof.
  unfold print_diff_desktop_hook_items. split_all.
  - intros ->. reflexivity.
  - intros ->. destruct (desktop a); reflexivity.
  - intros da db -> -> Hne. cbn [is_NULL FAIL_IF same_desktop].
    apply Z.eqb_neq in Hne. rewrite Hne. reflexivity.
Qed.



(** ** A snapshot against itself *)

Lemma for_each_stops {X} (f : X -> io unit) (l : list X) s :
  outcome (for_each f l) = Stop s ->
  exists x, In x l /\ outcome (f x) = Stop s.
Proof.
  induction l as [|x l IH]; cbn [for_each]; [discriminate|].
  destruct (f x) as [o [[]|s']] eqn:E; cbn.
  - intros H. destruct (IH H) as [y [Hy Hs]]. exists y. auto.
  - intros H. injection H as ->. exists x. rewrite E. auto.
Qed.

Lemma in_printed_for_each {X} (f : X -> io unit) (l : list X) o :
  In o (printed (for_each f l)) ->
  exists x, In x l /\ In o (printed (f x)).
Proof.
  induction l as [|x l IH]; cbn [for_each]; [intros []|].
  intros H. apply in_printed_seq in H. destruct H as [H|H].
  - exists x. auto with datatypes.
  - destruct (IH H) as [y [Hy Ho]]. exists y. auto with datatypes.
Qed.




(** ** Every record once *)





(** ** The two snapshots exchanged *)



(** ** How print_diff_desktop_hook_lists ends *)

(** A step of the loops stops the process by a FAIL_IF only, and prints
    no fatal diagnostic. *)
Lemma perform_stops cfg deskname v s :
  outcome (perform cfg deskname v) = Stop s -> s = failed.
Proof.
  destruct v as [[|] x|[|] x|x y]; cbn [perform];
    try rewrite is_hook_wanted_cases;
    try discriminate.
  3:{ rewrite print_diff_hook_outcome.
      destruct (contexts_present y); [discriminate|].
      intros H. injection H as <-. reflexivity. }
  all: (destruct (filter_stops cfg x);
        [intros H; injection H as <-; reflexivity|]);
    rewrite bind_return_l; destruct (wanted cfg x); discriminate.
Qed.

Lemma perform_no_fatal cfg deskname v msg :
  ~ In (fatal_message msg) (printed (perform cfg deskname v)).
Proof.
  destruct v as [[|] x|[|] x|x y]; cbn [perform];
    try rewrite is_hook_wanted_cases;
    try (destruct (filter_stops cfg x); [intros []|];
         rewrite bind_return_l; destruct (wanted cfg x));
    try (cbn; intuition discriminate).
  rewrite in_print_diff_hook, !in_print_diff_gui_call, !in_print_flags_parts.
  intros H. break_up; discriminate.
Qed.

Lemma print_diff_desktop_hook_items_cases cfg a b :
  print_diff_desktop_hook_items cfg a b = ([], Stop failed)
  \/ exists deskname,
       print_diff_desktop_hook_items cfg a b = diff_loops cfg deskname a b.
Proof.
  unfold print_diff_desktop_hook_items.
  destruct (desktop a) as [da|]; [|left; reflexivity].
  destruct (desktop b) as [db|]; [|left; reflexivity].
  cbn [is_NULL FAIL_IF]. rewrite !seq_return_l.
  destruct (same_desktop (Some da) (Some db)); [|left; reflexivity].
  cbn [negb FAIL_IF]. rewrite seq_return_l.
  destruct (hook_max a =? hook_max b); [|left; reflexivity].
  cbn [negb FAIL_IF]. rewrite seq_return_l.
  right. eexists. reflexivity.
Qed.

Lemma diff_pair_stops cfg ab s :
  outcome (diff_pair cfg ab) = Stop s -> s = failed.
Proof.
  unfold diff_pair.
  destruct (print_diff_desktop_hook_items_cases cfg (fst ab) (snd ab))
    as [->|[deskname ->]].
  - intros H. injection H as <-. reflexivity.
  - rewrite diff_loops_merge_join. intros H.
    apply for_each_stops in H. destruct H as [v [_ H]].
    apply perform_stops in H. exact H.
Qed.

Lemma diff_pair_no_fatal cfg ab msg :
  ~ In (fatal_message msg) (printed (diff_pair cfg ab)).
Proof.
  unfold diff_pair.
  destruct (print_diff_desktop_hook_items_cases cfg (fst ab) (snd ab))
    as [->|[deskname ->]]; [intros []|].
  rewrite diff_loops_merge_join. intros H.
  apply in_printed_for_each in H. destruct H as [v [_ H]].
  revert H. apply perform_no_fatal.
Qed.

(** X16. For two desktop hook lists of the same length,
    print_diff_desktop_hook_lists is the comparison of the desktop hook
    items pair by pair, in the order of the lists: it ends as the pairs end
    and prints what they print, without a diagnostic. In particular two
    empty lists give no output. *)
Theorem hook_lists_same_length cfg list1 list2 :
  List.length list1 = List.length list2 ->
  print_diff_desktop_hook_lists cfg list1 list2
  = for_each (diff_pair cfg) (combine list1 list2)
  /\ forall msg,
       ~ In (fatal_message msg)
            (printed (print_diff_desktop_hook_lists cfg list1 list2)).
Proof.
  intros Hlen.
  assert (E : print_diff_desktop_hook_lists cfg list1 list2
              = for_each (diff_pair cfg) (combine list1 list2)).
  { rewrite print_diff_desktop_hook_lists_combine, Hlen, Nat.eqb_refl.
    cbn [negb when]. apply seq_return_r. }
  split; [exact E|].
  intros msg H. rewrite E in H.
  apply in_printed_for_each in H. destruct H as [ab [_ H]].
  revert H. apply diff_pair_no_fatal.
Qed.



(** X17. The three ways print_diff_desktop_hook_lists ends, with [pairs]
    the comparison of the items at the common positions. The pairs never
    exit: they return or fail a FAIL_IF. The function returns exactly when
    the pairs return and the lists have the same length; it stops on a
    failed FAIL_IF exactly when the pairs do; it exits exactly when the
    pairs return and the lengths differ, and then with status 1; and the
    fatal diagnostic is printed in this last case only. *)
Theorem hook_lists_outcome cfg list1 list2 :
  let pairs := for_each (diff_pair cfg) (combine list1 list2) in
  let run := print_diff_desktop_hook_lists cfg list1 list2 in
  (forall status, outcome pairs <> Stop (exited status))
  /\ (outcome run = Return tt
      <-> outcome pairs = Return tt
          /\ List.length list1 = List.length list2)
  /\ (outcome run = Stop failed <-> outcome pairs = Stop failed)
  /\ (forall status,
        outcome run = Stop (exited status)
        <-> status = 1 /\ outcome pairs = Return tt
            /\ List.length list1 <> List.length list2)
  /\ (forall msg,
        In (fatal_message msg) (printed run)
        <-> msg = "The desktop hook stores could not be fully compared."%string
            /\ outcome pairs = Return tt
            /\ List.length list1 <> List.length list2).
Proof.
  intros pairs run.
  assert (Hpairs : forall status, outcome pairs <> Stop (exited status)).
  { intros status H. apply for_each_stops in H. destruct H as [ab [_ H]].
    apply diff_pair_stops in H. discriminate H. }
  assert (Hfatal : forall msg, ~ In (fatal_message msg) (printed pairs)).
  { intros msg H. apply in_printed_for_each in H. destruct H as [ab [_ H]].
    revert H. apply diff_pair_no_fatal. }
  split; [exact Hpairs|].
  subst run. rewrite print_diff_desktop_hook_lists_combine. fold pairs.
  destruct pairs as [o [[]|[|status]]] eqn:E; unfold outcome, printed in *;
    cbn [fst snd seq] in *;
    [|split_all; try intros x; split; intros H; try discriminate H;
      try (destruct H as (_ & H & _); discriminate H);
      try (destruct H as (H & _); discriminate H);
      try reflexivity; exfalso; apply (Hfatal x); exact H
     |exfalso; apply (Hpairs status); reflexivity].
  destruct (Nat.eqb_spec (List.length list1) (List.length list2)) as [L|L];
    cbn [negb when MSG_FATAL print exit seq fst snd app];
    rewrite ?app_nil_r, ?in_app_iff; cbn [In];
    split_all; try intros x; split; intros H;
    try discriminate H; try reflexivity; try tauto;
    try (destruct H as (_ & _ & H); contradiction);
    try (destruct H as (_ & H); contradiction);
    try (exfalso; apply (Hfatal x); exact H).
  - injection H as <-. auto.
  - destruct H as (-> & _). reflexivity.
  - apply in_app_iff in H.
    destruct H as [H|[H|[]]]; [exfalso; apply (Hfatal x); exact H|].
    injection H as <-. auto.
  - destruct H as (-> & _). apply in_app_iff. right. left. reflexivity.
Qed.

(** ** The cursors of the loops *)








(** ** Notices and their [end] headers *)

Lemma well_closed_app : forall n o1 o2,
  (List.length o1 <= n)%nat ->
  well_closed o1 = true -> well_closed o2 = true ->
  well_closed (o1 ++ o2) = true.
Proof.
  induction n as [|n IH]; intros o1 o2 Hn H1 H2.
  - destruct o1; [exact H2|cbn in Hn; lia].
  - destruct o1 as [|x o1]; [exact H2|]. cbn [List.length] in Hn.
    destruct x; cbn [app well_closed] in *; try discriminate;
      try (apply IH; trivial; lia).
    destruct d.
    + destruct o1 as [|y o1]; [discriminate|].
      destruct y; try discriminate.
      cbn [app]. cbn [List.length] in Hn. apply IH; trivial; lia.
    + apply IH; trivial; lia.
    + destruct o1 as [|y o1]; [discriminate|].
      destruct y; try discriminate.
      cbn [app]. cbn [List.length] in Hn. apply IH; trivial; lia.
Qed.

Lemma well_closed_headerless l :
  (forall o, In o l -> is_header o = false) -> well_closed l = true.
Proof.
  induction l as [|x l IH]; intros H; [reflexivity|].
  pose proof (H x (or_introl eq_refl)) as Hx.
  destruct x; try discriminate Hx; cbn [well_closed];
    apply IH; intros z Hz; apply H; right; exact Hz.
Qed.

Lemma well_closed_seq {A B} (m : io A) (k : io B) :
  well_closed (printed m) = true -> well_closed (printed k) = true ->
  well_closed (printed (m ;; k)) = true.
Proof.
  intros Hm Hk. rewrite printed_seq.
  apply (well_closed_app (n := List.length (printed m))); trivial.
  destruct (outcome m); trivial.
Qed.

Lemma well_closed_print_diff_hook a b deskname :
  well_closed (printed (print_diff_hook a b deskname)) = true.
Proof.
  rewrite print_diff_hook_blocks. unfold printed at 1. cbn [fst].
  destruct (bFlags (entry a) =? bFlags (entry b)); cbn [app well_closed];
    apply well_closed_headerless; intros o;
    repeat (rewrite in_app_iff || rewrite in_if_nil); cbn [In]; intros H;
    headerless H.
Qed.

Lemma well_closed_perform cfg deskname v :
  well_closed (printed (perform cfg deskname v)) = true.
Proof.
  destruct v as [[|] x|[|] x|x y]; cbn [perform];
    try apply well_closed_print_diff_hook;
    try reflexivity;
    rewrite is_hook_wanted_cases;
    (destruct (filter_stops cfg x); [reflexivity|]);
    rewrite bind_return_l; destruct (wanted cfg x); reflexivity.
Qed.

Lemma well_closed_for_each {X} (f : X -> io unit) (l : list X) :
  (forall x, well_closed (printed (f x)) = true) ->
  well_closed (printed (for_each f l)) = true.
Proof.
  intros Hf. induction l as [|x l IH]; cbn [for_each]; [reflexivity|].
  apply well_closed_seq; [apply Hf|exact IH].
Qed.

Lemma well_closed_diff_pair cfg ab :
  well_closed (printed (diff_pair cfg ab)) = true.
Proof.
  unfold diff_pair.
  destruct (print_diff_desktop_hook_items_cases cfg (fst ab) (snd ab))
    as [->|[deskname ->]]; [reflexivity|].
  rewrite diff_loops_merge_join.
  apply well_closed_for_each, well_closed_perform.
Qed.

(** X19. In the output of print_diff_desktop_hook_items, and in that of
    print_diff_desktop_hook_lists, for every policy and all inputs and
    also when the process is stopped on the way: every Added and every
    Removed header is followed at once by its [end] header, and there is
    no other [end] header, so that a Modified notice is never closed. *)
Theorem notices_well_closed cfg :
  (forall a b,
     well_closed (printed (print_diff_desktop_hook_items cfg a b)) = true)
  /\ (forall list1 list2,
        well_closed (printed (print_diff_desktop_hook_lists cfg list1 list2))
        = true).
Proof.
  split.
  - intros a b. apply (well_closed_diff_pair cfg (a, b)).
  - intros list1 list2. rewrite print_diff_desktop_hook_lists_combine.
    apply well_closed_seq.
    + apply well_closed_for_each, well_closed_diff_pair.
    + destruct (negb _); reflexivity.
Qed.

(** ** The notices of a desktop, end to end *)








End Reading.

(** * The theorems at inputs

    The runs below are under the reading [blank_reading]. *)

Lemma merge_join_classifies_witness :
  outcome (diff_loops blank_reading no_filter (L "Default")
             old_1_3_5_threads new_1_4_5_threads) = Return tt
  /\ diff_loops blank_reading no_filter (L "Default")
       old_1_3_5_threads new_1_4_5_threads
     = for_each (perform blank_reading no_filter (L "Default"))
         [Compared (hook_with 1 2 (gui_of 300 notepad))
                   (hook_with 1 2 (gui_of 300 notepad));
          Removed merging (hook_with 3 2 (gui_of 300 notepad));
          Added merging (hook_with 4 2 (gui_of 300 notepad));
          Compared (hook_with 5 2 (gui_of 300 notepad))
                   (hook_with 5 2 (gui_of 300 notepad))].
Proof.
  assert (Ha : ascending (hook_arr old_1_3_5_threads)) by repeat constructor.
  assert (Hb : ascending (hook_arr new_1_4_5_threads)) by repeat constructor.
  destruct (proj1 (@merge_join_classifies blank_reading)
              no_filter old_1_3_5_threads new_1_4_5_threads Ha Hb)
    as (Hloops & _ & _ & _ & _ & _ & _ & _ & Hret).
  split; [|apply Hloops].
  apply Hret.
  - constructor.
  - intros v Hv. cbn in Hv.
    repeat destruct Hv as [<-|Hv]; try exact I; try destruct Hv;
      repeat split; discriminate.
Defined.

Lemma hook_lists_fatal_after_common_pairs_witness :
  print_diff_desktop_hook_lists blank_reading no_filter session_2 session_3
  = (for_each (diff_pair blank_reading no_filter)
       (combine session_2 session_3) ;;
     MSG_FATAL "The desktop hook stores could not be fully compared." ;;
     exit 1).
Proof.
  refine (proj1 (@hook_lists_fatal_after_common_pairs blank_reading no_filter
                   session_2 session_3 _)).
  cbn. lia.
Defined.

(** Counterexample to C3 as stated: with two desktops in the old snapshot
    and three in the new one, the two pairs of desktops are compared and
    the Removed notice of the first pair is printed before the
    diagnostic. *)
Lemma hook_lists_partial_output :
  List.length session_2 <> List.length session_3
  /\ print_diff_desktop_hook_lists blank_reading no_filter session_2 session_3
     = ([hook_notice_begin hook_200_2 (L "Default") HOOK_REMOVED;
         hook_notice_end;
         fatal_message "The desktop hook stores could not be fully compared."],
        Stop (exited 1))
  /\ notices (printed (print_diff_desktop_hook_lists blank_reading no_filter
                         session_2 session_3)) <> O.
Proof.
  split; [cbn; lia|]. split; [vm_compute; reflexivity|].
  vm_compute. discriminate.
Qed.

Lemma merge_while_gated_notice_witness :
  merge_while blank_reading exclude_pid_100 (L "Default")
    (desktop_hooks Default [hook_100_2] 8)
    (desktop_hooks Default [hook_of 5 2 None] 8) 0 0
  = ((wanted <- is_hook_wanted exclude_pid_100 hook_100_2 ;;
      when wanted (print_hook_notice hook_100_2 (L "Default") HOOK_REMOVED)) ;;
     merge_while blank_reading exclude_pid_100 (L "Default")
       (desktop_hooks Default [hook_100_2] 8)
       (desktop_hooks Default [hook_of 5 2 None] 8) 1 0).
Proof.
  refine (proj1 (proj1 (@merge_while_gated_notice blank_reading
    exclude_pid_100 (L "Default")
    (desktop_hooks Default [hook_100_2] 8)
    (desktop_hooks Default [hook_of 5 2 None] 8) 0 0 _ _ _ _) _));
    [reflexivity|reflexivity|cbn; lia].
Defined.

Lemma hook_max_mismatch_aborts_witness :
  print_diff_desktop_hook_items blank_reading no_filter
    (desktop_hooks Default [hook_200_2] 8)
    (desktop_hooks Default [hook_200_2] 16)
  = ([], Stop failed).
Proof.
  apply (@hook_max_mismatch_aborts blank_reading no_filter
           (desktop_hooks Default [hook_200_2] 8)
           (desktop_hooks Default [hook_200_2] 16)).
  cbn. lia.
Defined.


(** Flags of the HOOK that differ above the low byte: the message, and no
    part after it; before and after it the changes of the thread contexts,
    from the literal to the contexts of the old record. *)
Example hook_flags_changed_without_parts :
  print_diff_hook blank_reading (with_flags hook_300_2 256)
    (with_flags hook_300_2 512) (L "Default")
  = ([gui_changed "" (Some (literal_as_gui blank_reading "owner"))
        (Some (gui_of 300 notepad));
      gui_changed "" (Some (literal_as_gui blank_reading "origin"))
        (Some (gui_of 300 notepad));
      hook_flags_changed;
      gui_changed "" (Some (literal_as_gui blank_reading "target"))
        (Some (gui_of 300 notepad))],
     Return tt).
Proof. reflexivity. Qed.

Lemma desktop_mismatch_aborts_witness :
  print_diff_desktop_hook_items blank_reading no_filter
    (desktop_hooks Default [hook_200_2] 8)
    (desktop_hooks Winlogon [hook_200_2] 8)
  = ([], Stop failed).
Proof.
  apply (proj2 (proj2 (@desktop_mismatch_aborts blank_reading no_filter
           (desktop_hooks Default [hook_200_2] 8)
           (desktop_hooks Winlogon [hook_200_2] 8))) Default Winlogon);
    [reflexivity|reflexivity|cbn; lia].
Defined.


Lemma hook_lists_same_length_witness :
  print_diff_desktop_hook_lists blank_reading no_filter [] []
  = for_each (diff_pair blank_reading no_filter) (combine [] [])
  /\ print_diff_desktop_hook_lists blank_reading exclude_pid_100
       [old_1_3_5_threads] [new_1_4_5_threads]
     = for_each (diff_pair blank_reading exclude_pid_100)
         (combine [old_1_3_5_threads] [new_1_4_5_threads]).
Proof.
  split.
  - apply (@hook_lists_same_length blank_reading no_filter [] []).
    reflexivity.
  - apply (@hook_lists_same_length blank_reading exclude_pid_100
             [old_1_3_5_threads] [new_1_4_5_threads]).
    reflexivity.
Defined.


